(** * dependency_guesser: the missing-module parser, the installer and the
      resolution loop of [dependency_guesser.py]

    Python text is modelled by [string]: a sequence of code points below 256.
    Integers (return codes, the timeout) are [Z], the attempt counter is [nat].
    The outside world (the target program, the operator at the prompt, pip) is
    an oracle indexed by the attempt number; everything the program does to
    the outside world (log calls, prints, prompts, spawned processes) is
    recorded in a chronological trace. *)

From Stdlib Require Import ZArith List String Ascii Bool Arith Lia.
From Stdlib Require Import DecimalString.
Import ListNotations.

Local Open Scope list_scope.
Local Open Scope string_scope.

(* ================================================================== *)
(** ** Text primitives *)
(* ================================================================== *)

Module Text.

Definition NL : string := String "010"%char EmptyString.
Definition DQ : string := String "034"%char EmptyString.

(** [str(n)] for an integer. *)
Definition str_of_int (z : Z) : string := NilZero.string_of_int (Z.to_int z).

(** [str.isspace] on one character (and the class [\s] of [re]):
    TAB..CR, FS..US, SPACE, NEL and NBSP. *)
Definition isspace (c : ascii) : bool :=
  let n := nat_of_ascii c in
  (((9 <=? n) && (n <=? 13)) || ((28 <=? n) && (n <=? 32))
   || (n =? 133) || (n =? 160))%nat.

(** [str.lower] on one character: A..Z and the upper-case letters of the
    Latin-1 block (all of 0xC0..0xDE but the multiplication sign). *)
Definition lower_char (c : ascii) : ascii :=
  let n := nat_of_ascii c in
  if (((65 <=? n) && (n <=? 90))
      || ((192 <=? n) && (n <=? 222) && negb (n =? 215)))%nat
  then ascii_of_nat (n + 32) else c.

Fixpoint lower (s : string) : string :=
  match s with
  | EmptyString => EmptyString
  | String c s' => String (lower_char c) (lower s')
  end.

Fixpoint lstrip (s : string) : string :=
  match s with
  | EmptyString => EmptyString
  | String c s' => if isspace c then lstrip s' else s
  end.

Fixpoint rstrip (s : string) : string :=
  match s with
  | EmptyString => EmptyString
  | String c s' =>
      match rstrip s' with
      | EmptyString => if isspace c then EmptyString else String c EmptyString
      | r => String c r
      end
  end.

(** [str.strip()] with no argument. *)
Definition strip (s : string) : string := rstrip (lstrip s).

Fixpoint all_chars (f : ascii -> bool) (s : string) : bool :=
  match s with
  | EmptyString => true
  | String c s' => f c && all_chars f s'
  end.

(** Python truthiness of a [str]. *)
Definition truthy (s : string) : bool :=
  match s with EmptyString => false | String _ _ => true end.

(** [x in [a, b, ...]] for strings. *)
Definition mem (x : string) (l : list string) : bool :=
  existsb (String.eqb x) l.

(** Matches literal [p] at the head of [s] and gives what follows. *)
Fixpoint skip_literal (p s : string) : option string :=
  match p, s with
  | EmptyString, _ => Some s
  | String a p', String b s' =>
      if Ascii.eqb a b then skip_literal p' s' else None
  | String _ _, EmptyString => None
  end.

(** [s.startswith(p)]. *)
Definition starts_with (p s : string) : bool :=
  match skip_literal p s with
  | Some _ => true
  | None => false
  end.

(** [needle in hay]. *)
Fixpoint contains (needle hay : string) : bool :=
  starts_with needle hay
  || match hay with
     | EmptyString => false
     | String _ hay' => contains needle hay'
     end.

End Text.
Import Text.

(* ================================================================== *)
(** ** The [re] fragment used by the parser *)
(* ================================================================== *)

Module Re.

(** The three patterns of the source all have the shape
    [before (C* ) after] or [before (C+) after]: a literal, one capturing
    group that repeats a character class greedily, a literal. *)
Record pattern : Type := {
  before : string;
  cls : ascii -> bool;
  one_or_more : bool;
  after : string
}.

(** The group [(C* )] followed by the literal [aft], matched the way a
    backtracking engine does: take one more character when possible, and
    fall back to stopping here when the rest cannot be matched. The result
    is the text of the group. *)
Fixpoint greedy_star (C : ascii -> bool) (aft s : string) : option string :=
  let stop :=
    match skip_literal aft s with
    | Some _ => Some EmptyString
    | None => None
    end in
  match s with
  | EmptyString => stop
  | String c s' =>
      if C c then
        match greedy_star C aft s' with
        | Some g => Some (String c g)
        | None => stop
        end
      else stop
  end.

Definition greedy_group (p : pattern) (s : string) : option string :=
  if one_or_more p then
    match s with
    | EmptyString => None
    | String c s' =>
        if cls p c then
          match greedy_star (cls p) (after p) s' with
          | Some g => Some (String c g)
          | None => None
          end
        else None
    end
  else greedy_star (cls p) (after p) s.

(** The pattern anchored at the head of [s]. *)
Definition match_here (p : pattern) (s : string) : option string :=
  match skip_literal (before p) s with
  | Some rest => greedy_group p rest
  | None => None
  end.

(** [re.search(p, s)]: the leftmost match; [Some g] is a match object
    whose [group(1)] is [g], [None] is Python's [None]. *)
Fixpoint search (p : pattern) (s : string) : option string :=
  match match_here p s with
  | Some g => Some g
  | None =>
      match s with
      | EmptyString => None
      | String _ s' => search p s'
      end
  end.

(** *** What the patterns mean, stated without the engine *)

(** [s] starts with an instance of [p] whose group is [g]. *)
Definition instance_here (p : pattern) (s g : string) : Prop :=
  all_chars (cls p) g = true
  /\ (one_or_more p = true -> g <> EmptyString)
  /\ exists rest, s = before p ++ g ++ after p ++ rest.

(** [text] contains an instance of [p] somewhere. *)
Definition occurs (p : pattern) (text : string) : Prop :=
  exists pre tail g, text = pre ++ tail /\ instance_here p tail g.

(** [g] is the group of the leftmost instance of [p] in [text], the
    longest one at that position. *)
Definition captured (p : pattern) (text g : string) : Prop :=
  exists pre tail,
    text = pre ++ tail
    /\ instance_here p tail g
    /\ (forall g', instance_here p tail g' -> String.length g' <= String.length g)
    /\ (forall pre' tail' g',
           text = pre' ++ tail' ->
           String.length pre' < String.length pre ->
           ~ instance_here p tail' g').

End Re.

(* ================================================================== *)
(** ** parse_missing_module *)
(* ================================================================== *)

Definition not_char (q : ascii) (c : ascii) : bool := negb (Ascii.eqb c q).

(** The list [patterns] of the source, in its order. *)
Definition patterns : list Re.pattern :=
  [ {| Re.before := "No module named '";
       Re.cls := not_char "'"%char;
       Re.one_or_more := false;
       Re.after := "'" |};
    {| Re.before := "No module named " ++ DQ;
       Re.cls := not_char "034"%char;
       Re.one_or_more := false;
       Re.after := DQ |};
    {| Re.before := "ImportError: No module named ";
       Re.cls := fun c => negb (isspace c);
       Re.one_or_more := true;
       Re.after := EmptyString |} ].

(** The [for pattern in patterns] loop: the group of the first pattern that
    is found. *)
Fixpoint first_found (ps : list Re.pattern) (text : string) : option string :=
  match ps with
  | [] => None
  | p :: ps' =>
      match Re.search p text with
      | Some g => Some g
      | None => first_found ps' text
      end
  end.

Definition parse_missing_module (stderr_output : string) : option string :=
  first_found patterns stderr_output.

(* ================================================================== *)
(** ** Effects: exceptions, the trace, and the monad of the program *)
(* ================================================================== *)

(** The exceptions the program raises or handles. [OtherException] stands
    for any other subclass of [Exception] (an [EOFError] at the prompt, a
    [PermissionError] when spawning), with [str(e)] as its field. *)
Inductive exn : Type :=
| FileNotFoundError
| TimeoutExpired
| CalledProcessError (returncode : Z) (stderr : string)
| KeyboardInterrupt
| SystemExit (code : Z)
| OtherException (msg : string).

(** [isinstance(e, Exception)]: [KeyboardInterrupt] and [SystemExit] derive
    from [BaseException] only. *)
Definition is_Exception (e : exn) : bool :=
  match e with
  | KeyboardInterrupt | SystemExit _ => false
  | _ => true
  end.

(** [str(e)], as the [except Exception as e] handler formats it. The handler
    only ever receives [OtherException]; the other cases keep the function
    total. *)
Definition str_of_exn (e : exn) : string :=
  match e with
  | OtherException msg => msg
  | FileNotFoundError => "No such file or directory"
  | TimeoutExpired => "Command timed out"
  | CalledProcessError rc _ =>
      "Command returned non-zero exit status " ++ str_of_int rc ++ "."
  | KeyboardInterrupt => EmptyString
  | SystemExit code => str_of_int code
  end.

Inductive level : Type := INFO | WARNING | ERROR | CRITICAL.

(** What the program does to the outside world, in the order it does it. *)
Inductive event : Type :=
| Log (l : level) (msg : string)      (* logging.info / warning / error / critical *)
| Print (msg : string)                (* print *)
| Input (prompt : string)             (* input(prompt) *)
| Run (argv : list string).           (* subprocess.run(argv, ...) *)

Inductive result (A : Type) : Type :=
| Ok (a : A)
| Raise (e : exn).
Arguments Ok {A} a.
Arguments Raise {A} e.

(** A computation yields a value or raises, and emits events on the way. *)
Definition M (A : Type) : Type := result A * list event.

Definition ret {A} (a : A) : M A := (Ok a, []).
Definition raise {A} (e : exn) : M A := (Raise e, []).
Definition emit (e : event) : M unit := (Ok tt, [e]).

Definition bind {A B} (m : M A) (f : A -> M B) : M B :=
  match m with
  | (Ok a, evs) => let (r, evs') := f a in (r, (evs ++ evs')%list)
  | (Raise e, evs) => (Raise e, evs)
  end.

(** [try: m  except ...: handler]. The handler sees every exception and
    re-raises the ones no [except] clause names. *)
Definition try_except {A} (m : M A) (handler : exn -> M A) : M A :=
  match m with
  | (Ok a, evs) => (Ok a, evs)
  | (Raise e, evs) => let (r, evs') := handler e in (r, (evs ++ evs')%list)
  end.

Notation "x <- m ;; k" := (bind m (fun x => k))
  (at level 61, m at next level, right associativity).
Notation "m ;; k" := (bind m (fun _ => k))
  (at level 61, right associativity).

Definition log (l : level) (msg : string) : M unit := emit (Log l msg).
Definition print (msg : string) : M unit := emit (Print msg).
Definition sys_exit {A} (code : Z) : M A := raise (SystemExit code).

(** [for x in xs: body x]. *)
Fixpoint for_each {A} (xs : list A) (body : A -> M unit) : M unit :=
  match xs with
  | [] => ret tt
  | x :: xs' => body x ;; for_each xs' body
  end.

(* ================================================================== *)
(** ** The outside world *)
(* ================================================================== *)

(** [subprocess.CompletedProcess] with [capture_output=True, text=True]. *)
Record CompletedProcess : Type := {
  returncode : Z;
  stdout : string;
  stderr : string
}.

(** How spawning a child and waiting for it ends. An interrupt of the
    driver while the child runs is not among these outcomes. *)
Inductive spawn : Type :=
| Exited (p : CompletedProcess)
| NoSuchFile                          (* the executable is not there *)
| SpawnError (msg : string).          (* any other OSError *)

(** The same under [timeout=...]. *)
Inductive timed_spawn : Type :=
| Within (s : spawn)
| Expired.

(** What the operator does at the [input] prompt. *)
Inductive keyboard : Type :=
| Typed (line : string)
| CtrlC
| EndOfInput.

(** What the world answers during one attempt: the target program, the
    operator (if asked), pip (if invoked). *)
Record attempt_world : Type := {
  target : timed_spawn;
  operator : keyboard;
  pip : spawn
}.

(** The world of a whole execution, by attempt number (from 1). *)
Definition world : Type := nat -> attempt_world.

(** [subprocess.run(argv, check=..., capture_output=True, text=True,
    timeout=...)] against the world's answer. *)
Definition subprocess_run (argv : list string) (check : bool)
    (answer : timed_spawn) : M CompletedProcess :=
  emit (Run argv) ;;
  match answer with
  | Expired => raise TimeoutExpired
  | Within NoSuchFile => raise FileNotFoundError
  | Within (SpawnError msg) => raise (OtherException msg)
  | Within (Exited p) =>
      if check && negb (returncode p =? 0)%Z
      then raise (CalledProcessError (returncode p) (stderr p))
      else ret p
  end.

(** [input(prompt)]. *)
Definition input (prompt : string) (answer : keyboard) : M string :=
  emit (Input prompt) ;;
  match answer with
  | Typed line => ret line
  | CtrlC => raise KeyboardInterrupt
  | EndOfInput => raise (OtherException "EOF when reading a line")
  end.

(* ================================================================== *)
(** ** install_package *)
(* ================================================================== *)

(** The confirmation block ([if not assume_yes: try: ... except
    KeyboardInterrupt: ...]). [Some r] is the early [return r] of the
    function, [None] falls through to the installation. *)
Definition confirm (a : attempt_world) (package_name : string)
    (assume_yes : bool) : M (option (bool * string)) :=
  if negb assume_yes then
    try_except
      (prompt <- input ("Missing package '" ++ package_name
                        ++ "'. Install with pip? [Y/n] ") (operator a) ;;
       if negb (mem (strip (lower prompt)) [EmptyString; "y"; "yes"]) then
         log WARNING ("Skipping installation of '" ++ package_name ++ "'.") ;;
         ret (Some (false, "User declined to install " ++ package_name ++ "."))
       else ret None)
      (fun e =>
         match e with
         | KeyboardInterrupt =>
             log INFO (NL ++ "Installation cancelled by user.") ;;
             sys_exit 1
         | _ => raise e
         end)
  else ret None.

Definition install_package (a : attempt_world)
    (package_name python_executable : string) (assume_yes : bool)
  : M (bool * string) :=
  if negb (truthy package_name) then
    ret (false, "No package name provided.")
  else
    early <- confirm a package_name assume_yes ;;
    match early with
    | Some r => ret r
    | None =>
        log INFO ("Attempting to install '" ++ package_name ++ "' with pip...") ;;
        try_except
          (install_process <-
             subprocess_run
               [python_executable; "-m"; "pip"; "install"; package_name]
               true (Within (pip a)) ;;
           log INFO ("Successfully installed '" ++ package_name ++ "'.") ;;
           print (stdout install_process) ;;
           ret (true, EmptyString))
          (fun e =>
             match e with
             | CalledProcessError rc err =>
                 ret (false,
                      "Failed to install '" ++ package_name ++ "'." ++ NL
                      ++ "pip exited with status " ++ str_of_int rc ++ "." ++ NL
                      ++ "Stderr:" ++ NL ++ err)
             | FileNotFoundError =>
                 ret (false,
                      "Error: '" ++ python_executable
                      ++ "' command not found. Is Python installed and in your PATH?")
             | _ => raise e
             end)
    end.

(* ================================================================== *)
(** ** resolve_dependencies *)
(* ================================================================== *)

Definition max_retries : nat := 20.

(** How one pass through the body of the [while] ends when it does not
    raise: [continue] or [break]. *)
Inductive control : Type := Continue | Break.

(** The state of the loop when it is over: whether the function returned
    or an exception left it, its two variables, and all it did. *)
Record final : Type := {
  outcome : result unit;
  retries : nat;
  installed_packages : list string;
  trace : list event
}.

Section Resolve.

Variable script_path : string.
Variable timeout : Z.
Variable assume_yes : bool.
Variable python_executable : string.

(** The body of the [while] after [retries += 1]. It gives the control
    signal and [installed_packages] as the pass leaves it. *)
Definition loop_body (a : attempt_world) (retries : nat)
    (installed_packages : list string) : M (control * list string) :=
  log INFO ("--- Attempt " ++ str_of_int (Z.of_nat retries) ++ ": Running '"
            ++ script_path ++ "' using '" ++ python_executable ++ "' ---") ;;
  try_except
    (process <-
       subprocess_run [python_executable; script_path] false (target a) ;;
     let stderr_output := stderr process in
     if negb (returncode process =? 0)%Z && truthy stderr_output then
       match parse_missing_module stderr_output with
       | Some (String c m) =>
           let missing_module := String c m in
           log INFO ("Detected missing module: '" ++ missing_module ++ "'") ;;
           let package_to_install := missing_module in
           r <- install_package a package_to_install python_executable
                  assume_yes ;;
           let (success, message) := r in
           if success then
             ret (Continue, (installed_packages ++ [package_to_install])%list)
           else
             log ERROR ("Error: " ++ message) ;;
             log CRITICAL "Aborting due to installation failure." ;;
             sys_exit 1
       | _ =>
           log ERROR
             "Script failed with an error that is not a recognized import error." ;;
           log ERROR ("Return Code: " ++ str_of_int (returncode process)) ;;
           print (NL ++ "--- STDOUT ---" ++ NL ++ stdout process) ;;
           print (NL ++ "--- STDERR ---" ++ NL ++ stderr_output) ;;
           ret (Break, installed_packages)
       end
     else
       log INFO "--- Script Execution Successful ---" ;;
       log INFO "The script ran without any import errors." ;;
       print (NL ++ "--- STDOUT ---" ++ NL ++ stdout process) ;;
       (if truthy (stderr process)
        then print (NL ++ "--- STDERR ---" ++ NL ++ stderr process)
        else ret tt) ;;
       ret (Break, installed_packages))
    (fun e =>
       match e with
       | FileNotFoundError =>
           log CRITICAL ("Error: The script '" ++ script_path
                         ++ "' or interpreter '" ++ python_executable
                         ++ "' was not found.") ;;
           sys_exit 1
       | TimeoutExpired =>
           log WARNING "--- Script Execution Timed Out ---" ;;
           log WARNING
             ("The script ran for more than the specified timeout of "
              ++ str_of_int timeout ++ " seconds without exiting.") ;;
           log INFO "Assuming all dependencies are resolved." ;;
           ret (Break, installed_packages)
       | _ =>
           if is_Exception e then
             log CRITICAL ("An unexpected error occurred: " ++ str_of_exn e) ;;
             sys_exit 1
           else raise e
       end).

(** The code after the loop: the retry-limit message and the summary. *)
Definition epilogue (retries : nat) (installed_packages : list string)
  : M unit :=
  (if (max_retries <=? retries)%nat then
     log CRITICAL
       "Reached maximum number of retries. Aborting to prevent infinite loop."
   else ret tt) ;;
  print (NL ++ "--- Dependency Resolution Summary ---") ;;
  (match installed_packages with
   | _ :: _ =>
       print "Successfully installed the following packages:" ;;
       for_each installed_packages (fun pkg => print ("  - " ++ pkg))
   | [] => print "No new packages needed to be installed."
   end) ;;
  print "---------------------------------------".

Definition finish (retries : nat) (installed_packages : list string)
    (m : M unit) : final :=
  {| outcome := fst m;
     retries := retries;
     installed_packages := installed_packages;
     trace := snd m |}.

(** Puts the events of earlier passes in front of what follows. *)
Definition after (evs : list event) (f : final) : final :=
  {| outcome := outcome f;
     retries := retries f;
     installed_packages := installed_packages f;
     trace := (evs ++ trace f)%list |}.

(** [while retries < max_retries: retries += 1; body], then the code
    after the loop. [None] only when [fuel] runs out. *)
Fixpoint while_loop (w : world) (fuel : nat) (retries : nat)
    (installed_packages : list string) : option final :=
  if (retries <? max_retries)%nat then
    match fuel with
    | O => None
    | S fuel' =>
        let retries := retries + 1 in
        match loop_body (w retries) retries installed_packages with
        | (Ok (Continue, installed_packages'), evs) =>
            option_map (after evs)
              (while_loop w fuel' retries installed_packages')
        | (Ok (Break, installed_packages'), evs) =>
            Some (after evs
                    (finish retries installed_packages'
                       (epilogue retries installed_packages')))
        | (Raise e, evs) =>
            Some (finish retries installed_packages (Raise e, evs))
        end
    end
  else
    Some (finish retries installed_packages
            (epilogue retries installed_packages)).

Definition resolve_dependencies (w : world) : option final :=
  while_loop w max_retries 0 [].

(** *** The events of the passes that end the loop by [break] *)

Definition banner (retries : nat) : event :=
  Log INFO ("--- Attempt " ++ str_of_int (Z.of_nat retries) ++ ": Running '"
            ++ script_path ++ "' using '" ++ python_executable ++ "' ---").

Definition opening (retries : nat) : list event :=
  [banner retries; Run [python_executable; script_path]].

Definition timeout_pass (retries : nat) : list event :=
  (opening retries
   ++ [Log WARNING "--- Script Execution Timed Out ---";
       Log WARNING ("The script ran for more than the specified timeout of "
                    ++ str_of_int timeout ++ " seconds without exiting.");
       Log INFO "Assuming all dependencies are resolved."])%list.

Definition unrecognized_pass (retries : nat) (p : CompletedProcess)
  : list event :=
  (opening retries
   ++ [Log ERROR
         "Script failed with an error that is not a recognized import error.";
       Log ERROR ("Return Code: " ++ str_of_int (returncode p));
       Print (NL ++ "--- STDOUT ---" ++ NL ++ stdout p);
       Print (NL ++ "--- STDERR ---" ++ NL ++ stderr p)])%list.

Definition success_pass (retries : nat) (p : CompletedProcess)
  : list event :=
  (opening retries
   ++ [Log INFO "--- Script Execution Successful ---";
       Log INFO "The script ran without any import errors.";
       Print (NL ++ "--- STDOUT ---" ++ NL ++ stdout p)]
   ++ (if truthy (stderr p)
       then [Print (NL ++ "--- STDERR ---" ++ NL ++ stderr p)]
       else []))%list.

End Resolve.

(* ================================================================== *)
(** ** Reading a trace *)
(* ================================================================== *)

Definition level_eqb (a b : level) : bool :=
  match a, b with
  | INFO, INFO | WARNING, WARNING | ERROR, ERROR | CRITICAL, CRITICAL => true
  | _, _ => false
  end.

Definition is_log (l : level) (msg : string) (e : event) : bool :=
  match e with
  | Log l' m => level_eqb l l' && String.eqb m msg
  | _ => false
  end.

(** The target program is run with two words, pip with five. *)
Definition is_target_run (e : event) : bool :=
  match e with
  | Run [_; _] => true
  | _ => false
  end.

Definition is_pip_run (e : event) : bool :=
  match e with
  | Run [_; _; _; _; _] => true
  | _ => false
  end.

Definition count {A} (f : A -> bool) (l : list A) : nat :=
  List.length (filter f l).

(** The line that opens every pass of the loop. *)
Definition is_attempt_banner (e : event) : bool :=
  match e with
  | Log INFO m => starts_with "--- Attempt " m
  | _ => false
  end.

(** The warning [install_package] logs when the operator says no. *)
Definition is_decline_warning (e : event) : bool :=
  match e with
  | Log WARNING m => starts_with "Skipping installation of '" m
  | _ => false
  end.

(** The events by which a call of [install_package] shows: the prompt, the
    spawning of pip, and the lines logged around them. *)
Definition installer_sign (e : event) : bool :=
  match e with
  | Input _ => true
  | Run [_; _; _; _; _] => true
  | Log INFO m =>
      starts_with "Attempting to install '" m
      || starts_with "Successfully installed '" m
      || String.eqb m (NL ++ "Installation cancelled by user.")
  | Log WARNING m => starts_with "Skipping installation of '" m
  | _ => false
  end.

(** The terminal reasons of the specification, and the message by which the
    program announces each. A declined and a failed installation are
    announced by the same two lines; the warning of [install_package]
    tells them apart. *)
Inductive terminal_reason : Type :=
| Success
| TimeoutAssumedSuccess
| UnrecognizedFailure
| InstallDeclined
| InstallFailed
| RetryLimitExceeded.

(** The line logged when the loop stops for reason [t]. *)
Definition announcement (t : terminal_reason) : level * string :=
  match t with
  | Success => (INFO, "--- Script Execution Successful ---")
  | TimeoutAssumedSuccess => (WARNING, "--- Script Execution Timed Out ---")
  | UnrecognizedFailure =>
      (ERROR,
       "Script failed with an error that is not a recognized import error.")
  | InstallDeclined | InstallFailed =>
      (CRITICAL, "Aborting due to installation failure.")
  | RetryLimitExceeded =>
      (CRITICAL,
       "Reached maximum number of retries. Aborting to prevent infinite loop.")
  end.

Definition announces (t : terminal_reason) (e : event) : bool :=
  is_log (fst (announcement t)) (snd (announcement t)) e.

Definition reached (t : terminal_reason) (evs : list event) : bool :=
  existsb (announces t) evs
  && match t with
     | InstallDeclined => existsb is_decline_warning evs
     | InstallFailed => negb (existsb is_decline_warning evs)
     | _ => true
     end.

Definition is_announcement (e : event) : bool :=
  existsb (fun t => announces t e)
    [Success; TimeoutAssumedSuccess; UnrecognizedFailure; InstallFailed;
     RetryLimitExceeded].

(** An event that is neither a run of the target nor the banner of a pass. *)
Definition calm (e : event) : bool :=
  negb (is_target_run e) && negb (is_attempt_banner e).

(** An event that is neither a run of the target, nor the banner of a pass,
    nor the announcement of a terminal reason. *)
Definition quiet (e : event) : bool :=
  negb (is_target_run e) && negb (is_attempt_banner e)
  && negb (is_announcement e).

(** The summary block for a given list of packages. *)
Definition summary (pkgs : list string) : list event :=
  (Print (NL ++ "--- Dependency Resolution Summary ---")
   :: match pkgs with
      | [] => [Print "No new packages needed to be installed."]
      | _ :: _ =>
          Print "Successfully installed the following packages:"
          :: map (fun pkg => Print ("  - " ++ pkg)) pkgs
      end
   ++ [Print "---------------------------------------"])%list.

Definition is_summary_header (e : event) : bool :=
  match e with
  | Print m => String.eqb m (NL ++ "--- Dependency Resolution Summary ---")
  | _ => false
  end.

(** [needle] is a substring of [hay]. *)
Definition occurs_in (needle hay : string) : Prop :=
  exists pre post, hay = pre ++ needle ++ post.

(** The same run with another exit status. *)
Definition with_returncode (rc : Z) (p : CompletedProcess) : CompletedProcess :=
  {| returncode := rc; stdout := stdout p; stderr := stderr p |}.

(** One pass does not end the loop. *)
Definition continues (script_path : string) (timeout : Z) (assume_yes : bool)
    (python_executable : string) (a : attempt_world) (k : nat) : bool :=
  match fst (loop_body script_path timeout assume_yes python_executable a k [])
  with
  | Ok (Continue, _) => true
  | _ => false
  end.

(** [install_package] reports failure. *)
Definition install_fails (a : attempt_world)
    (package_name python_executable : string) (assume_yes : bool) : Prop :=
  exists message,
    fst (install_package a package_name python_executable assume_yes)
    = Ok (false, message).

(* ================================================================== *)
(** ** The ways a pass of the loop can go *)
(* ================================================================== *)

Definition detected (name : string) : event :=
  Log INFO ("Detected missing module: '" ++ name ++ "'").

Definition abort_lines (message : string) : list event :=
  [Log ERROR ("Error: " ++ message);
   Log CRITICAL "Aborting due to installation failure."].

Definition unexpected (msg : string) : event :=
  Log CRITICAL ("An unexpected error occurred: " ++ msg).

(** A failing run of the target whose stderr names the missing module
    [name]. *)
Definition misses (a : attempt_world) (name : string) : Prop :=
  exists p,
    target a = Within (Exited p)
    /\ returncode p <> 0%Z
    /\ parse_missing_module (stderr p) = Some name
    /\ name <> EmptyString.

Section Passes.

Variable script_path : string.
Variable timeout : Z.
Variable assume_yes : bool.
Variable python_executable : string.

Let opening := opening script_path python_executable.
Let install (a : attempt_world) (name : string) :=
  install_package a name python_executable assume_yes.

Inductive pass (a : attempt_world) (k : nat) (inst : list string)
  : result (control * list string) -> list event -> Prop :=
| pass_timeout :
    target a = Expired ->
    pass a k inst (Ok (Break, inst))
      (timeout_pass script_path timeout python_executable k)
| pass_success p :
    target a = Within (Exited p) ->
    returncode p = 0%Z \/ stderr p = EmptyString ->
    pass a k inst (Ok (Break, inst))
      (success_pass script_path python_executable k p)
| pass_unrecognized p :
    target a = Within (Exited p) ->
    returncode p <> 0%Z ->
    stderr p <> EmptyString ->
    parse_missing_module (stderr p) = None
    \/ parse_missing_module (stderr p) = Some EmptyString ->
    pass a k inst (Ok (Break, inst))
      (unrecognized_pass script_path python_executable k p)
| pass_installed name message ievs :
    misses a name ->
    install a name = (Ok (true, message), ievs) ->
    pass a k inst (Ok (Continue, (inst ++ [name])%list))
      (opening k ++ detected name :: ievs)%list
| pass_install_failed name message ievs :
    misses a name ->
    install a name = (Ok (false, message), ievs) ->
    pass a k inst (Raise (SystemExit 1))
      (opening k ++ detected name :: ievs ++ abort_lines message)%list
| pass_install_cancelled name ievs :
    misses a name ->
    install a name = (Raise (SystemExit 1), ievs) ->
    pass a k inst (Raise (SystemExit 1))
      (opening k ++ detected name :: ievs)%list
| pass_install_error name msg ievs :
    misses a name ->
    install a name = (Raise (OtherException msg), ievs) ->
    pass a k inst (Raise (SystemExit 1))
      (opening k ++ detected name :: ievs ++ [unexpected msg])%list
| pass_not_found :
    target a = Within NoSuchFile ->
    pass a k inst (Raise (SystemExit 1))
      (opening k
       ++ [Log CRITICAL ("Error: The script '" ++ script_path
                         ++ "' or interpreter '" ++ python_executable
                         ++ "' was not found.")])%list
| pass_spawn_error msg :
    target a = Within (SpawnError msg) ->
    pass a k inst (Raise (SystemExit 1)) (opening k ++ [unexpected msg])%list.

End Passes.

(* ================================================================== *)
(** ** Sample worlds *)
(* ================================================================== *)

Module Sample.

Definition import_error (name : string) : CompletedProcess :=
  {| returncode := 1;
     stdout := EmptyString;
     stderr := "Traceback (most recent call last):" ++ NL
               ++ "ModuleNotFoundError: No module named '" ++ name ++ "'"
               ++ NL |}.

Definition pip_ok : spawn :=
  Exited {| returncode := 0;
            stdout := "Successfully installed";
            stderr := EmptyString |}.

Definition pip_failure : CompletedProcess :=
  {| returncode := 1;
     stdout := EmptyString;
     stderr := "ERROR: No matching distribution found" |}.

Definition pip_no_such_package : spawn := Exited pip_failure.

(** Every attempt misses a module that pip cannot install. *)
Definition never_installable : world :=
  fun _ =>
    {| target := Within (Exited (import_error "nosuchpkg"));
       operator := Typed EmptyString;
       pip := pip_no_such_package |}.

(** Every attempt misses another module and pip installs it. *)
Definition always_one_more : world :=
  fun k =>
    {| target := Within (Exited (import_error
                                   ("pkg" ++ str_of_int (Z.of_nat k))));
       operator := Typed "y";
       pip := pip_ok |}.

(** The operator answers [n] at the first prompt. *)
Definition operator_says_no : world :=
  fun _ =>
    {| target := Within (Exited (import_error "requests"));
       operator := Typed "n";
       pip := pip_ok |}.

(** The target hangs from the first attempt on. *)
Definition hangs : world :=
  fun _ =>
    {| target := Expired; operator := Typed EmptyString; pip := pip_ok |}.

Definition syntax_error_run : CompletedProcess :=
  {| returncode := 1;
     stdout := "starting";
     stderr := "SyntaxError: invalid syntax" |}.

(** The target dies of something else. *)
Definition syntax_error : world :=
  fun _ =>
    {| target := Within (Exited syntax_error_run);
       operator := Typed EmptyString;
       pip := pip_ok |}.

Definition silent_crash_run : CompletedProcess :=
  {| returncode := 3;
     stdout := "partial output";
     stderr := EmptyString |}.

(** The target exits with status 3 and says nothing. *)
Definition silent_crash : world :=
  fun _ =>
    {| target := Within (Exited silent_crash_run);
       operator := Typed EmptyString;
       pip := pip_ok |}.

(** Nineteen installations, then a clean run. *)
Definition clean_on_twentieth : world :=
  fun k =>
    if (k <? 20)%nat then always_one_more k
    else {| target := Within (Exited {| returncode := 0;
                                        stdout := "done";
                                        stderr := EmptyString |});
            operator := Typed EmptyString;
            pip := pip_ok |}.

End Sample.

(* ================================================================== *)
(** ** More readers of a trace *)
(* ================================================================== *)

Definition is_input (e : event) : bool :=
  match e with
  | Input _ => true
  | _ => false
  end.

(** A spawned process is run under interpreter [py]; other events pass. *)
Definition runs_under (py : string) (e : event) : bool :=
  match e with
  | Run [] => false
  | Run (exe :: _) => String.eqb exe py
  | _ => true
  end.

(** The line [install_package] logs after pip has exited 0. *)
Definition installed_line (name : string) : event :=
  Log INFO ("Successfully installed '" ++ name ++ "'.").

Definition is_installed_line (e : event) : bool :=
  match e with
  | Log INFO m => starts_with "Successfully installed '" m
  | _ => false
  end.

(** The module the parser finds in the stderr of the run of one attempt
    (the empty string when there is none). *)
Definition detected_name (a : attempt_world) : string :=
  match target a with
  | Within (Exited p) =>
      match parse_missing_module (stderr p) with
      | Some name => name
      | None => EmptyString
      end
  | _ => EmptyString
  end.

(** The operator's line is one of the accepted answers. *)
Definition consents (line : string) : bool :=
  mem (strip (lower line)) [EmptyString; "y"; "yes"].

(** The operator is asked and answers with a line that is not accepted. *)
Definition declines (a : attempt_world) (assume_yes : bool) : bool :=
  negb assume_yes
  && match operator a with
     | Typed line => negb (consents line)
     | _ => false
     end.

Definition is_print (e : event) : bool :=
  match e with
  | Print _ => true
  | _ => false
  end.

Definition starts_with_print (evs : list event) : bool :=
  match evs with
  | e :: _ => is_print e
  | [] => false
  end.

(** Two [print]s in a row, with nothing between them. *)
Fixpoint adjacent_prints (evs : list event) : bool :=
  match evs with
  | e :: rest =>
      (is_print e && starts_with_print rest) || adjacent_prints rest
  | [] => false
  end.

(** The events of one pass of the loop. They do not depend on the list of
    installed packages, which only the result of the pass carries. *)
Definition pass_events (script_path : string) (timeout : Z)
    (assume_yes : bool) (python_executable : string) (a : attempt_world)
    (k : nat) : list event :=
  snd (loop_body script_path timeout assume_yes python_executable a k []).

(** The events of the passes [1..n], in order. *)
Definition passes (script_path : string) (timeout : Z) (assume_yes : bool)
    (python_executable : string) (w : world) (n : nat) : list event :=
  flat_map
    (fun k =>
       pass_events script_path timeout assume_yes python_executable (w k) k)
    (seq 1 n).

(* ================================================================== *)
(** ** The entry point of the script *)
(* ================================================================== *)

Module Main.

Definition VENV_NAME : string := "env".

(** The namespace [parser.parse_args()] returns. *)
Record Args : Type := {
  script_path : string;
  create_env : bool;
  fork_timeout : Z;
  yes : bool;
  log_level : string
}.

(** The machine the script runs on: [sys.platform], [sys.executable], what
    [os.path.exists] answers before the virtual environment is created, how
    [python -m venv] ends, what [os.path.exists] answers after it, and the
    world of the resolution loop. *)
Record host : Type := {
  platform : string;
  executable : string;
  files : string -> bool;
  venv_run : spawn;
  files_after_venv : string -> bool;
  attempts : world
}.

Fixpoint ends_with (suffix s : string) : bool :=
  String.eqb suffix s
  || match s with
     | EmptyString => false
     | String _ s' => ends_with suffix s'
     end.

(** [os.path.join(a, *parts)] as [posixpath] computes it, with the
    separator as a parameter. For components without drive letters and
    without separators (all this script joins) [ntpath] computes the same
    with the backslash. *)
Fixpoint os_path_join (sep path : string) (parts : list string) : string :=
  match parts with
  | [] => path
  | b :: parts' =>
      os_path_join sep
        (if starts_with sep b then b
         else if negb (truthy path) || ends_with sep path then path ++ b
         else path ++ sep ++ b)
        parts'
  end.

Definition backslash : string := String "092"%char EmptyString.

(** The interpreter of the virtual environment, by platform. *)
Definition venv_python (platform : string) : string :=
  if String.eqb platform "win32"
  then os_path_join backslash VENV_NAME ["Scripts"; "python.exe"]
  else os_path_join "/" VENV_NAME ["bin"; "python"].

(** The [if args.create_env:] block; it gives the interpreter the loop is to
    use. *)
Definition choose_interpreter (h : host) (args : Args) : M string :=
  let python_executable := executable h in
  if create_env args then
    fs <-
      (if files h VENV_NAME then
         log WARNING ("Directory '" ++ VENV_NAME
                      ++ "' already exists. Using existing environment.") ;;
         ret (files h)
       else
         log INFO ("Creating virtual environment '" ++ VENV_NAME ++ "'...") ;;
         try_except
           (subprocess_run [executable h; "-m"; "venv"; VENV_NAME] true
              (Within (venv_run h)) ;;
            log INFO "Successfully created virtual environment." ;;
            ret (files_after_venv h))
           (fun e =>
              match e with
              | CalledProcessError _ err =>
                  log CRITICAL ("Failed to create virtual environment."
                                ++ NL ++ err) ;;
                  sys_exit 1
              | _ => raise e
              end)) ;;
    let python_executable := venv_python (platform h) in
    if negb (fs python_executable) then
      log CRITICAL ("Could not find Python executable in venv at '"
                    ++ python_executable ++ "'.") ;;
      sys_exit 1
    else
      log INFO ("Using Python interpreter from venv: '"
                ++ python_executable ++ "'") ;;
      ret python_executable
  else ret python_executable.

(** The [if __name__ == "__main__":] block after argument parsing:
    how the process ends and all it did. [logging.basicConfig] only selects
    which log records are shown and leaves no event. *)
Definition main (h : host) (args : Args) : option (result unit * list event) :=
  match choose_interpreter h args with
  | (Ok python_executable, evs) =>
      option_map
        (fun f => (outcome f, (evs ++ trace f)%list))
        (resolve_dependencies (script_path args) (fork_timeout args)
           (yes args) python_executable (attempts h))
  | (Raise e, evs) => Some (Raise e, evs)
  end.

Definition is_venv_run (e : event) : bool :=
  match e with
  | Run [_; _; _; _] => true
  | _ => false
  end.

End Main.

(** The command that creates the virtual environment. *)
Definition venv_argv (h : Main.host) : list string :=
  [Main.executable h; "-m"; "venv"; Main.VENV_NAME].

Definition exists_line : event :=
  Log WARNING ("Directory '" ++ Main.VENV_NAME
               ++ "' already exists. Using existing environment.").

Definition using_line (h : Main.host) : event :=
  Log INFO ("Using Python interpreter from venv: '"
            ++ Main.venv_python (Main.platform h) ++ "'").

(* ================================================================== *)
(** ** More sample worlds *)
(* ================================================================== *)

Module Scenario.

Definition clean_run : CompletedProcess :=
  {| returncode := 0; stdout := "hello"; stderr := EmptyString |}.

(** The target runs cleanly at once. *)
Definition clean : world :=
  fun _ =>
    {| target := Within (Exited clean_run);
       operator := Typed EmptyString;
       pip := Sample.pip_ok |}.

(** The script is not there. *)
Definition no_script : world :=
  fun _ =>
    {| target := Within NoSuchFile;
       operator := Typed EmptyString;
       pip := Sample.pip_ok |}.

(** The operator hits Ctrl-C at the first prompt. *)
Definition interrupted : world :=
  fun _ =>
    {| target := Within (Exited (Sample.import_error "requests"));
       operator := CtrlC;
       pip := Sample.pip_ok |}.

Definition arguments (create_env : bool) : Main.Args :=
  {| Main.script_path := "target.py";
     Main.create_env := create_env;
     Main.fork_timeout := 15;
     Main.yes := true;
     Main.log_level := "INFO" |}.

Definition venv_failure : CompletedProcess :=
  {| returncode := 1;
     stdout := EmptyString;
     stderr := "Error: ensurepip is not available" |}.

(** A Linux machine without an [env] directory, on which [python -m venv]
    fails. *)
Definition broken_venv : Main.host :=
  {| Main.platform := "linux";
     Main.executable := "/usr/bin/python3";
     Main.files := fun _ => false;
     Main.venv_run := Exited venv_failure;
     Main.files_after_venv := fun _ => false;
     Main.attempts := clean |}.

(** A Windows machine with an [env] directory in place. *)
Definition windows_with_env : Main.host :=
  {| Main.platform := "win32";
     Main.executable := "C:/Python/python.exe";
     Main.files := fun _ => true;
     Main.venv_run := Exited venv_failure;
     Main.files_after_venv := fun _ => true;
     Main.attempts := Sample.always_one_more |}.

End Scenario.

(* ================================================================== *)
(** * Properties *)
(* ================================================================== *)

(** ** Text *)

Lemma append_nil_r (s : string) : s ++ EmptyString = s.
Proof. induction s as [|c s IH]; simpl; [reflexivity | now rewrite IH]. Qed.

Lemma append_assoc (a b c : string) : (a ++ b) ++ c = a ++ b ++ c.
Proof. induction a as [|x a IH]; simpl; [reflexivity | now rewrite IH]. Qed.

Lemma length_append (a b : string) :
  String.length (a ++ b) = String.length a + String.length b.
Proof. induction a as [|x a IH]; simpl; [reflexivity | now rewrite IH]. Qed.

Lemma append_cancel_l (a b c : string) : a ++ b = a ++ c -> b = c.
Proof.
  induction a as [|x a IH]; simpl; intros H; [exact H|].
  injection H as H. auto.
Qed.

(** Two splits of one text at the same position are the same split. *)
Lemma append_split_unique (a b a' b' : string) :
  a ++ b = a' ++ b' -> String.length a = String.length a' ->
  a = a' /\ b = b'.
Proof.
  revert a'. induction a as [|x a IH]; intros [|x' a'] H L;
    simpl in *; try discriminate.
  - auto.
  - injection H as -> H. injection L as L.
    destruct (IH _ H L) as [-> ->]. auto.
Qed.

Lemma skip_literal_spec (p s r : string) :
  skip_literal p s = Some r <-> s = p ++ r.
Proof.
  revert s. induction p as [|a p IH]; intros s; simpl.
  - split; [intros [= ->] | intros ->]; reflexivity.
  - destruct s as [|b s].
    + split; discriminate.
    + destruct (Ascii.eqb_spec a b) as [->|N].
      * rewrite IH. split; [intros -> | intros [= ->]]; reflexivity.
      * split; [discriminate | intros [= E _]; congruence].
Qed.

Lemma starts_with_spec (p s : string) :
  starts_with p s = true <-> exists r, s = p ++ r.
Proof.
  unfold starts_with. destruct (skip_literal p s) as [r|] eqn:E.
  - apply skip_literal_spec in E. split; eauto.
  - split; [discriminate|]. intros [r Hr].
    apply skip_literal_spec in Hr. congruence.
Qed.

Lemma contains_spec (needle hay : string) :
  contains needle hay = true <-> occurs_in needle hay.
Proof.
  unfold occurs_in. induction hay as [|c hay IH].
  - simpl. rewrite orb_false_r, starts_with_spec. split.
    + intros [r Hr]. exists EmptyString, r. exact Hr.
    + intros [[|x pre] [post H]]; simpl in H; [eauto | discriminate].
  - simpl. rewrite orb_true_iff, starts_with_spec, IH. split.
    + intros [[r Hr] | [pre [post H]]].
      * exists EmptyString, r. exact Hr.
      * exists (String c pre), post. simpl. now rewrite H.
    + intros [[|x pre] [post H]]; simpl in H.
      * left. eauto.
      * right. injection H as _ H. eauto.
Qed.

Lemma all_chars_app (f : ascii -> bool) (a b : string) :
  all_chars f (a ++ b) = all_chars f a && all_chars f b.
Proof.
  induction a as [|c a IH]; simpl; [reflexivity|].
  now rewrite IH, andb_assoc.
Qed.

Lemma isspace_lower_char (c : ascii) : isspace (lower_char c) = isspace c.
Proof.
  destruct c as [[] [] [] [] [] [] [] []]; reflexivity.
Qed.

Lemma lower_lstrip (s : string) : lower (lstrip s) = lstrip (lower s).
Proof.
  induction s as [|c s IH]; simpl; [reflexivity|].
  rewrite isspace_lower_char. destruct (isspace c); [exact IH | reflexivity].
Qed.

Lemma lower_rstrip (s : string) : lower (rstrip s) = rstrip (lower s).
Proof.
  induction s as [|c s IH]; simpl; [reflexivity|].
  rewrite <- IH, isspace_lower_char.
  destruct (rstrip s); simpl; [destruct (isspace c)|]; reflexivity.
Qed.

(** Lowering and stripping commute: the order in which they are composed
    does not matter. *)
Lemma lower_strip (s : string) : lower (strip s) = strip (lower s).
Proof. unfold strip. now rewrite lower_rstrip, lower_lstrip. Qed.

(** ** The engine against the meaning of the patterns *)

Section GreedyStar.

Variable C : ascii -> bool.
Variable aft : string.

Lemma greedy_star_sound (s g : string) :
  Re.greedy_star C aft s = Some g ->
  all_chars C g = true /\ exists rest, s = g ++ aft ++ rest.
Proof.
  revert g. induction s as [|c s IH]; intros g; simpl.
  - destruct (skip_literal aft EmptyString) as [r|] eqn:E; [|discriminate].
    intros [= <-]. apply skip_literal_spec in E. simpl. eauto.
  - assert (Stop :
      match skip_literal aft (String c s) with
      | Some _ => Some EmptyString
      | None => None
      end = Some g ->
      all_chars C g = true /\ exists rest, String c s = g ++ aft ++ rest).
    { destruct (skip_literal aft (String c s)) as [r|] eqn:E; [|discriminate].
      intros [= <-]. apply skip_literal_spec in E. simpl. eauto. }
    destruct (C c) eqn:Cc; [|exact Stop].
    destruct (Re.greedy_star C aft s) as [g0|] eqn:G; [|exact Stop].
    intros [= <-]. destruct (IH g0 eq_refl) as [A [rest ->]].
    simpl. rewrite Cc, A. eauto.
Qed.

Lemma greedy_star_complete (g rest : string) :
  all_chars C g = true ->
  exists g', Re.greedy_star C aft (g ++ aft ++ rest) = Some g'.
Proof.
  assert (Stop : forall s, (exists r, s = aft ++ r) ->
            exists g', Re.greedy_star C aft s = Some g').
  { intros s [r ->].
    assert (E : skip_literal aft (aft ++ r) = Some r)
      by now apply skip_literal_spec.
    destruct (aft ++ r) as [|c s] eqn:S; simpl; rewrite E; [eauto|].
    destruct (C c); [|eauto].
    destruct (Re.greedy_star C aft s); eauto. }
  induction g as [|c g IH]; intros A.
  - apply Stop. simpl. eauto.
  - simpl in A. apply andb_true_iff in A as [Cc A].
    destruct (IH A) as [g' G]. simpl. rewrite Cc, G. eauto.
Qed.

Lemma greedy_star_longest (s g g' rest' : string) :
  Re.greedy_star C aft s = Some g ->
  all_chars C g' = true -> s = g' ++ aft ++ rest' ->
  String.length g' <= String.length g.
Proof.
  revert g g'. induction s as [|c s IH]; intros g g' G A E.
  - destruct g'; [simpl; lia | discriminate].
  - destruct g' as [|c' g']; [simpl; lia|].
    simpl in E. injection E as <- E.
    simpl in A. apply andb_true_iff in A as [Cc A].
    simpl in G. rewrite Cc in G.
    destruct (Re.greedy_star C aft s) as [g0|] eqn:G0.
    + injection G as <-. simpl. apply le_n_S. eapply IH; eauto.
    + destruct (greedy_star_complete g' rest' A) as [g1 G1].
      rewrite <- E in G1. congruence.
Qed.

End GreedyStar.

Section MatchHere.

Variable p : Re.pattern.

Lemma greedy_group_sound (s g : string) :
  Re.greedy_group p s = Some g ->
  all_chars (Re.cls p) g = true
  /\ (Re.one_or_more p = true -> g <> EmptyString)
  /\ exists rest, s = g ++ Re.after p ++ rest.
Proof.
  unfold Re.greedy_group. destruct (Re.one_or_more p).
  - destruct s as [|c s]; [discriminate|].
    destruct (Re.cls p c) eqn:Cc; [|discriminate].
    destruct (Re.greedy_star (Re.cls p) (Re.after p) s) as [g0|] eqn:G;
      [|discriminate].
    intros [= <-]. apply greedy_star_sound in G as [A [rest ->]].
    simpl. rewrite Cc, A. split; [reflexivity|].
    split; [discriminate | eauto].
  - intros G. apply greedy_star_sound in G as [A R].
    split; [assumption|]. split; [discriminate | assumption].
Qed.

Lemma greedy_group_best (s g' rest' : string) :
  all_chars (Re.cls p) g' = true ->
  (Re.one_or_more p = true -> g' <> EmptyString) ->
  s = g' ++ Re.after p ++ rest' ->
  exists g, Re.greedy_group p s = Some g
            /\ String.length g' <= String.length g.
Proof.
  intros A N E. unfold Re.greedy_group. destruct (Re.one_or_more p).
  - destruct g' as [|c g']; [now contradiction N|].
    simpl in A. apply andb_true_iff in A as [Cc A].
    subst s. simpl. rewrite Cc.
    destruct (greedy_star_complete (Re.cls p) (Re.after p) g' rest' A)
      as [g G].
    rewrite G. eexists; split; [reflexivity|]. simpl. apply le_n_S.
    eapply greedy_star_longest; eauto.
  - subst s.
    destruct (greedy_star_complete (Re.cls p) (Re.after p) g' rest' A)
      as [g G].
    rewrite G. eexists; split; [reflexivity|].
    eapply greedy_star_longest; eauto.
Qed.

Lemma match_here_sound (s g : string) :
  Re.match_here p s = Some g -> Re.instance_here p s g.
Proof.
  unfold Re.match_here, Re.instance_here.
  destruct (skip_literal (Re.before p) s) as [r|] eqn:E; [|discriminate].
  apply skip_literal_spec in E. intros G.
  apply greedy_group_sound in G as [A [N [rest ->]]].
  split; [assumption|]. split; [assumption | eauto].
Qed.

Lemma match_here_best (s g' : string) :
  Re.instance_here p s g' ->
  exists g, Re.match_here p s = Some g
            /\ String.length g' <= String.length g.
Proof.
  unfold Re.match_here. intros [A [N [rest E]]].
  apply skip_literal_spec in E. rewrite E.
  eapply greedy_group_best; eauto.
Qed.

Lemma match_here_none (s g' : string) :
  Re.match_here p s = None -> ~ Re.instance_here p s g'.
Proof.
  intros E I. apply match_here_best in I as [g [G _]]. congruence.
Qed.

Lemma search_sound (text g : string) :
  Re.search p text = Some g -> Re.captured p text g.
Proof.
  induction text as [|c text IH]; simpl.
  - destruct (Re.match_here p EmptyString) as [g0|] eqn:E; [|discriminate].
    intros [= <-]. exists EmptyString, EmptyString.
    split; [reflexivity|]. split; [|split].
    + now apply match_here_sound.
    + intros g' I. apply match_here_best in I as [g1 [G L]]. congruence.
    + intros pre' tail' g' _ L. simpl in L. lia.
  - destruct (Re.match_here p (String c text)) as [g0|] eqn:E.
    + intros [= <-]. exists EmptyString, (String c text).
      split; [reflexivity|]. split; [|split].
      * now apply match_here_sound.
      * intros g' I. apply match_here_best in I as [g1 [G L]]. congruence.
      * intros pre' tail' g' _ L. simpl in L. lia.
    + intros S. destruct (IH S) as [pre [tail [-> [I [Lg Lm]]]]].
      exists (String c pre), tail.
      split; [reflexivity|]. split; [assumption|]. split; [assumption|].
      intros [|c' pre'] tail' g' E' L.
      * simpl in E'. subst tail'. now apply match_here_none.
      * simpl in E'. injection E' as -> E'. simpl in L.
        apply (Lm pre' tail' g' E'). lia.
Qed.

Lemma search_none (text : string) :
  Re.search p text = None -> ~ Re.occurs p text.
Proof.
  induction text as [|c text IH]; simpl.
  - destruct (Re.match_here p EmptyString) eqn:E; [discriminate|].
    intros _ [[|x pre] [tail [g [T I]]]]; simpl in T; [|discriminate].
    subst tail. revert I. now apply match_here_none.
  - destruct (Re.match_here p (String c text)) eqn:E; [discriminate|].
    intros S [[|x pre] [tail [g [T I]]]]; simpl in T.
    + subst tail. revert I. now apply match_here_none.
    + injection T as _ T. apply (IH S). exists pre, tail, g. auto.
Qed.

Lemma captured_occurs (text g : string) :
  Re.captured p text g -> Re.occurs p text.
Proof. intros [pre [tail [E [I _]]]]. exists pre, tail, g. auto. Qed.

(** The leftmost-longest instance has one group. *)
Lemma captured_functional (text g1 g2 : string) :
  Re.captured p text g1 -> Re.captured p text g2 -> g1 = g2.
Proof.
  intros [pre1 [tail1 [E1 [I1 [L1 M1]]]]] [pre2 [tail2 [E2 [I2 [L2 M2]]]]].
  assert (Len : String.length pre1 = String.length pre2).
  { destruct (Nat.lt_trichotomy (String.length pre1) (String.length pre2))
      as [Lt | [Eq | Gt]]; [|exact Eq|].
    - exfalso. now apply (M2 pre1 tail1 g1).
    - exfalso. now apply (M1 pre2 tail2 g2). }
  assert (T : tail1 = tail2).
  { rewrite E1 in E2. now destruct (append_split_unique _ _ _ _ E2 Len). }
  subst tail2.
  assert (Lg : String.length g1 = String.length g2).
  { apply Nat.le_antisymm; [now apply L2 | now apply L1]. }
  destruct I1 as [_ [_ [r1 R1]]], I2 as [_ [_ [r2 R2]]].
  rewrite R1 in R2. apply append_cancel_l in R2.
  now destruct (append_split_unique _ _ _ _ R2 Lg).
Qed.

Lemma search_spec (text g : string) :
  Re.search p text = Some g <-> Re.captured p text g.
Proof.
  split; [apply search_sound|]. intros Cap.
  destruct (Re.search p text) as [g'|] eqn:S.
  - f_equal. eapply captured_functional; [|exact Cap]. now apply search_sound.
  - exfalso. apply (search_none _ S). eapply captured_occurs; eauto.
Qed.

Lemma search_none_iff (text : string) :
  Re.search p text = None <-> ~ Re.occurs p text.
Proof.
  split; [apply search_none|]. intros N.
  destruct (Re.search p text) as [g|] eqn:S; [|reflexivity].
  exfalso. apply N. eapply captured_occurs. apply search_sound. eauto.
Qed.

End MatchHere.

(** ** parse_missing_module *)

Lemma first_found_some (ps : list Re.pattern) (text name : string) :
  first_found ps text = Some name <->
  exists earlier p later,
    ps = (earlier ++ p :: later)%list
    /\ (forall q, In q earlier -> ~ Re.occurs q text)
    /\ Re.captured p text name.
Proof.
  induction ps as [|q ps IH]; simpl.
  - split; [discriminate|]. intros [[|q0 earlier] [p [later [E _]]]]; discriminate.
  - destruct (Re.search q text) as [g|] eqn:S.
    + apply search_sound in S. split.
      * intros [= <-]. exists [], q, ps. simpl. intuition.
      * intros [[|q' earlier] [p [later [E [N Cap]]]]]; simpl in E.
        -- injection E as <- _. f_equal.
           eapply captured_functional; eauto.
        -- injection E as <- _. exfalso. apply (N q); [now left|].
           eapply captured_occurs; eauto.
    + rewrite IH. split.
      * intros [earlier [p [later [-> [N Cap]]]]].
        exists (q :: earlier), p, later. split; [reflexivity|]. split; [|exact Cap].
        intros q' [<- | I]; [now apply search_none | now apply N].
      * intros [[|q' earlier] [p [later [E [N Cap]]]]]; simpl in E.
        -- injection E as <- _. apply search_spec in Cap. congruence.
        -- injection E as <- ->. exists earlier, p, later.
           split; [reflexivity|]. split; [|exact Cap].
           intros q' I. apply N. now right.
Qed.

Lemma first_found_none (ps : list Re.pattern) (text : string) :
  first_found ps text = None <-> forall p, In p ps -> ~ Re.occurs p text.
Proof.
  induction ps as [|q ps IH]; simpl.
  - split; [intros _ p [] | reflexivity].
  - destruct (Re.search q text) as [g|] eqn:S.
    + split; [discriminate|]. intros N. exfalso. apply (N q); [now left|].
      eapply captured_occurs. apply search_sound. eauto.
    + rewrite IH. split.
      * intros N p [<- | I]; [now apply search_none | now apply N].
      * intros N p I. apply N. now right.
Qed.

(** C4. For every text, [parse_missing_module] returns [name] exactly when
    some template of the list occurs in the text, no template listed before
    it occurs anywhere in the text, and [name] is the group of its leftmost
    instance (the single-quoted form is listed first, then the double-quoted
    one, then the unquoted [ImportError] form); it returns [None] exactly
    when none of the three templates occurs in the text. *)
Theorem parse_missing_module_earliest_template (text : string) :
  (forall name,
      parse_missing_module text = Some name <->
      exists earlier p later,
        patterns = (earlier ++ p :: later)%list
        /\ (forall q, In q earlier -> ~ Re.occurs q text)
        /\ Re.captured p text name)
  /\ (parse_missing_module text = None <->
      forall p, In p patterns -> ~ Re.occurs p text).
Proof.
  split.
  - intros name. apply first_found_some.
  - apply first_found_none.
Qed.

Lemma parse_missing_module_earliest_template_witness :
  parse_missing_module "ModuleNotFoundError: No module named 'requests'"
  = Some "requests"
  /\ exists earlier p later,
       patterns = (earlier ++ p :: later)%list
       /\ (forall q,
              In q earlier ->
              ~ Re.occurs q "ModuleNotFoundError: No module named 'requests'")
       /\ Re.captured p "ModuleNotFoundError: No module named 'requests'"
            "requests".
Proof.
  split; [reflexivity|].
  apply (proj1 (proj1 (parse_missing_module_earliest_template
                         "ModuleNotFoundError: No module named 'requests'")
                  "requests")).
  reflexivity.
Defined.

Example parse_single_quoted :
  parse_missing_module "ModuleNotFoundError: No module named 'requests'"
  = Some "requests".
Proof. reflexivity. Qed.

Example parse_double_quoted :
  parse_missing_module ("No module named " ++ DQ ++ "yaml" ++ DQ)
  = Some "yaml".
Proof. reflexivity. Qed.

Example parse_unquoted :
  parse_missing_module ("ImportError: No module named numpy.core" ++ NL)
  = Some "numpy.core".
Proof. reflexivity. Qed.

Example parse_single_before_double :
  parse_missing_module
    ("No module named " ++ DQ ++ "second" ++ DQ ++ "; No module named 'first'")
  = Some "first".
Proof. reflexivity. Qed.

Example parse_nothing :
  parse_missing_module "SyntaxError: invalid syntax" = None.
Proof. reflexivity. Qed.

(** C5, as stated, fails: on a diagnostic with nothing between the quotes
    the parser returns the empty string, not [None]. *)
Lemma parser_returns_empty_name :
  parse_missing_module "ModuleNotFoundError: No module named ''"
  = Some EmptyString
  /\ ~ (forall text name,
           parse_missing_module text = Some name -> name <> EmptyString).
Proof.
  split; [reflexivity|]. intros H.
  now apply (H "ModuleNotFoundError: No module named ''" EmptyString).
Qed.

(** Only an empty quoted form can make the parser return the empty
    string. *)
Lemma nonempty_unless_empty_quotes (text name : string) :
  parse_missing_module text = Some name ->
  contains "No module named ''" text = false ->
  contains ("No module named " ++ DQ ++ DQ) text = false ->
  name <> EmptyString.
Proof.
  intros P S D ->.
  apply first_found_some in P as [earlier [p [later [E [_ Cap]]]]].
  assert (I : In p patterns) by (rewrite E; apply in_elt).
  destruct Cap as [pre [tail [-> [[_ [N [rest R]]] _]]]].
  assert (Hit : forall lit, tail = lit ++ rest ->
                            contains lit (pre ++ tail) = true).
  { intros lit ->. apply contains_spec. now exists pre, rest. }
  simpl in I. destruct I as [<- | [<- | [<- | []]]].
  - rewrite (Hit "No module named ''" R) in S. discriminate.
  - rewrite (Hit ("No module named " ++ DQ ++ DQ) R) in D. discriminate.
  - now apply N.
Qed.

(** ** install_package *)

(** Runs the monadic plumbing and leaves the texts alone. *)
Ltac run_m :=
  cbv beta iota delta
    [bind try_except ret raise emit log print sys_exit input subprocess_run
     is_Exception str_of_exn andb negb fst snd];
  cbn [app].

(** Splits on what pip answers. *)
Ltac pip_cases a :=
  let p := fresh "p" in
  destruct (pip a) as [p | | ?]; run_m;
  [destruct (returncode p =? 0)%Z eqn:?; run_m | | ].

(** Splits a call of [install_package] into the ways it can go. *)
Ltac installer_cases a pkg yes :=
  unfold install_package, confirm;
  destruct pkg as [|? ?]; cbn [truthy negb];
  [ run_m
  | destruct yes; cbn [negb]; run_m;
    [ pip_cases a
    | let line := fresh "line" in
      destruct (operator a) as [line | | ]; run_m;
      [ destruct (mem (strip (lower line)) [EmptyString; "y"; "yes"]) eqn:?;
        run_m; [ pip_cases a | ]
      | | ] ] ].

Lemma installer_raises (a : attempt_world) (pkg py : string) (yes : bool)
    (e : exn) (ievs : list event) :
  install_package a pkg py yes = (Raise e, ievs) ->
  e = SystemExit 1 \/ exists msg, e = OtherException msg.
Proof.
  installer_cases a pkg yes; try discriminate; intros [= <- <-]; eauto.
Qed.

Lemma installer_quiet (a : attempt_world) (pkg py : string) (yes : bool) :
  forallb quiet (snd (install_package a pkg py yes)) = true.
Proof.
  installer_cases a pkg yes; reflexivity.
Qed.

(** A call of [install_package] with a name to install always shows in the
    trace, so a pass without installer events did not call it. *)
Lemma installer_leaves_sign (a : attempt_world) (pkg py : string) (yes : bool) :
  pkg <> EmptyString ->
  existsb installer_sign (snd (install_package a pkg py yes)) = true.
Proof.
  intros N. installer_cases a pkg yes; try reflexivity. now contradiction N.
Qed.

Lemma installer_unprompted_no_decline (a : attempt_world) (pkg py : string) :
  existsb is_decline_warning (snd (install_package a pkg py true)) = false.
Proof.
  unfold install_package, confirm. destruct pkg as [|c pkg]; [reflexivity|].
  cbn [truthy negb]. run_m. pip_cases a; reflexivity.
Qed.

(** How a failed call tells a refusal from a failure of pip: the warning is
    logged exactly when the operator declines, and pip is spawned exactly
    when they do not. *)
Lemma installer_failure_kind (a : attempt_world) (pkg py : string)
    (yes : bool) (message : string) (ievs : list event) :
  pkg <> EmptyString ->
  install_package a pkg py yes = (Ok (false, message), ievs) ->
  existsb is_decline_warning ievs = declines a yes
  /\ existsb is_pip_run ievs = negb (declines a yes).
Proof.
  intros N. unfold declines, consents.
  installer_cases a pkg yes; try discriminate; try (now contradiction N);
    intros [= <- <-]; split; reflexivity.
Qed.

(** *** Prints in a row *)

Lemma starts_with_print_app (l1 l2 : list event) :
  starts_with_print (l1 ++ l2)
  = match l1 with
    | [] => starts_with_print l2
    | _ :: _ => starts_with_print l1
    end.
Proof. now destruct l1. Qed.

Lemma adjacent_prints_app (l1 l2 : list event) :
  adjacent_prints l1 = false ->
  adjacent_prints l2 = false ->
  starts_with_print l2 = false ->
  adjacent_prints (l1 ++ l2) = false.
Proof.
  intros H1 H2 S. induction l1 as [|e l1 IH]; [exact H2|].
  cbn [app adjacent_prints] in *. apply orb_false_iff in H1 as [A B].
  rewrite (IH B), orb_false_r, starts_with_print_app.
  destruct l1; [now rewrite S, andb_false_r | exact A].
Qed.

(** The summary block begins with two prints in a row. *)
Lemma summary_has_adjacent_prints (pkgs : list string)
    (pre post : list event) :
  adjacent_prints (pre ++ summary pkgs ++ post) = true.
Proof.
  induction pre as [|e pre IH].
  - unfold summary. destruct pkgs; reflexivity.
  - cbn [app adjacent_prints]. rewrite IH. apply orb_true_r.
Qed.

(** [install_package] prints at most once, the output of pip, and not as
    its first event. *)
Lemma installer_prints_apart (a : attempt_world) (pkg py : string)
    (yes : bool) :
  adjacent_prints (snd (install_package a pkg py yes)) = false
  /\ starts_with_print (snd (install_package a pkg py yes)) = false.
Proof.
  installer_cases a pkg yes; split; reflexivity.
Qed.

(** A pass that calls the installer has no two prints in a row, whatever
    follows the call, as long as that does not print. *)
Lemma installing_pass_prints_apart (sp py : string) (k : nat)
    (name : string) (ievs post : list event) :
  adjacent_prints ievs = false ->
  starts_with_print ievs = false ->
  adjacent_prints post = false ->
  starts_with_print post = false ->
  adjacent_prints (opening sp py k ++ detected name :: ievs ++ post) = false
  /\ starts_with_print (opening sp py k ++ detected name :: ievs ++ post)
     = false.
Proof.
  intros A S A' S'. split; [|reflexivity].
  change (opening sp py k ++ detected name :: ievs ++ post)%list
    with ((opening sp py k ++ [detected name]) ++ ievs ++ post)%list.
  apply adjacent_prints_app; [reflexivity | now apply adjacent_prints_app |].
  rewrite starts_with_print_app. now destruct ievs.
Qed.

(** What the trace of an aborting pass shows of the installer's call. *)
Lemma abort_pass_reads (sp py : string) (k : nat) (name message : string)
    (ievs : list event) :
  existsb is_decline_warning
    (opening sp py k ++ detected name :: ievs ++ abort_lines message)
  = existsb is_decline_warning ievs
  /\ existsb is_pip_run
       (opening sp py k ++ detected name :: ievs ++ abort_lines message)
     = existsb is_pip_run ievs.
Proof.
  split; cbn [opening app existsb]; rewrite existsb_app; cbn;
    now rewrite orb_false_r.
Qed.

(** C8. [install_package] reports [installed=true] exactly when it invoked
    pip and pip exited 0; when it invoked pip and pip exited with another
    status, it reports [installed=false] with a diagnostic that contains the
    exit status and the captured stderr; and for an empty package name it
    reports [installed=false] at once, without any event (no prompt, no
    pip). *)
Theorem install_package_outcome (a : attempt_world) (package_name
    python_executable : string) (assume_yes : bool) :
  let r := fst (install_package a package_name python_executable assume_yes) in
  let evs := snd (install_package a package_name python_executable assume_yes) in
  ((exists message, r = Ok (true, message)) <->
   (existsb is_pip_run evs = true
    /\ exists p, pip a = Exited p /\ returncode p = 0%Z))
  /\ (forall p,
         existsb is_pip_run evs = true ->
         pip a = Exited p -> returncode p <> 0%Z ->
         exists message,
           r = Ok (false, message)
           /\ occurs_in (str_of_int (returncode p)) message
           /\ occurs_in (stderr p) message)
  /\ (package_name = EmptyString ->
      r = Ok (false, "No package name provided.") /\ evs = []).
Proof.
  cbv zeta.
  assert (Msg : forall pkg rc err,
    let message :=
      "Failed to install '" ++ pkg ++ "'." ++ NL
      ++ "pip exited with status " ++ str_of_int rc ++ "." ++ NL
      ++ "Stderr:" ++ NL ++ err in
    occurs_in (str_of_int rc) message /\ occurs_in err message).
  { intros pkg rc err. split.
    - exists ("Failed to install '" ++ pkg ++ "'." ++ NL
              ++ "pip exited with status "),
             ("." ++ NL ++ "Stderr:" ++ NL ++ err).
      now rewrite !append_assoc.
    - exists ("Failed to install '" ++ pkg ++ "'." ++ NL
              ++ "pip exited with status " ++ str_of_int rc ++ "." ++ NL
              ++ "Stderr:" ++ NL),
             EmptyString.
      now rewrite !append_assoc, append_nil_r. }
  installer_cases a package_name assume_yes;
    (split; [split | split]);
    try discriminate;
    try (intros [message [=]]; fail);
    try (intros [[=] _]; fail);
    try (intros [_ [q [[=] _]]]; fail);
    try (intros q [=]; fail);
    try (intros; split; reflexivity).
  all: try match goal with
       | H : (returncode ?p =? 0)%Z = true |- _ => apply Z.eqb_eq in H
       | H : (returncode ?p =? 0)%Z = false |- _ => apply Z.eqb_neq in H
       end.
  all: try (intros _; split; [reflexivity | eauto]; fail).
  all: try (intros [_ [q [[= <-] Hq]]]; congruence).
  all: try (intros q _ [= <-] Hq; congruence).
  all: try (intros q _ [= <-] _; eexists; split; [reflexivity | apply Msg]).
  all: intros _; eexists; reflexivity.
Qed.

Lemma install_package_outcome_witness :
  pip (Sample.never_installable 1) = Exited Sample.pip_failure
  /\ exists message,
       fst (install_package (Sample.never_installable 1) "nosuchpkg" "python"
              true)
       = Ok (false, message)
       /\ occurs_in (str_of_int (returncode Sample.pip_failure)) message
       /\ occurs_in (stderr Sample.pip_failure) message.
Proof.
  split; [reflexivity|].
  apply (proj1 (proj2 (install_package_outcome
                         (Sample.never_installable 1) "nosuchpkg" "python"
                         true))).
  - reflexivity.
  - reflexivity.
  - discriminate.
Defined.

(** C10. With auto-confirm off and a package name to install, when the
    operator types a line at the prompt, [install_package] invokes pip
    exactly when the line, stripped of surrounding whitespace and
    lower-cased, is the empty string, [y] or [yes] (so the Enter key alone
    is consent); on any other line it reports [installed=false] with the
    declined diagnostic and pip is not invoked. *)
Theorem install_package_consent (a : attempt_world) (package_name
    python_executable line : string) :
  package_name <> EmptyString ->
  operator a = Typed line ->
  let r := fst (install_package a package_name python_executable false) in
  let evs := snd (install_package a package_name python_executable false) in
  let consent := mem (lower (strip line)) [EmptyString; "y"; "yes"] in
  (existsb is_pip_run evs = true <-> consent = true)
  /\ (consent = false ->
      r = Ok (false, "User declined to install " ++ package_name ++ ".")
      /\ existsb is_pip_run evs = false)
  /\ (line = EmptyString -> existsb is_pip_run evs = true).
Proof.
  intros N Op. cbv zeta. rewrite lower_strip.
  assert (Enter : line = EmptyString ->
                  mem (strip (lower line)) [EmptyString; "y"; "yes"] = true)
    by now intros ->.
  unfold install_package, confirm.
  destruct package_name as [|c pkg]; [now contradiction N|].
  cbn [truthy negb]. run_m. rewrite Op. run_m.
  destruct (mem (strip (lower line)) [EmptyString; "y"; "yes"]) eqn:Y; run_m.
  - pip_cases a; cbn [existsb is_pip_run orb]; intuition discriminate.
  - cbn [existsb is_pip_run orb]. intuition discriminate.
Qed.

Lemma install_package_consent_witness :
  operator (Sample.always_one_more 1) = Typed "y"
  /\ existsb is_pip_run
       (snd (install_package (Sample.always_one_more 1) "pkg1" "python" false))
     = true.
Proof.
  split; [reflexivity|].
  apply (proj1 (install_package_consent
                  (Sample.always_one_more 1) "pkg1" "python" "y"
                  ltac:(discriminate) eq_refl)).
  reflexivity.
Defined.

Example consent_is_case_and_space_insensitive :
  map (fun line => mem (lower (strip line)) [EmptyString; "y"; "yes"])
      [EmptyString; "  "; "Y"; " yes "; "YES"; "n"; "no"; "yes please"; "ye"]
  = [true; true; true; true; true; false; false; false; false].
Proof. reflexivity. Qed.

Lemma truthy_true (s : string) : truthy s = true <-> s <> EmptyString.
Proof. destruct s; simpl; split; congruence. Qed.

Lemma truthy_false (s : string) : truthy s = false <-> s = EmptyString.
Proof. destruct s; simpl; split; congruence. Qed.

(** ** One pass of the loop *)

Section PassProofs.
Variable script_path : string.
Variable timeout : Z.
Variable assume_yes : bool.
Variable python_executable : string.

Local Set Warnings "-notation-for-abbreviation".

Notation pass := (pass script_path timeout assume_yes python_executable).
Notation loop_body :=
  (loop_body script_path timeout assume_yes python_executable).
Notation opening := (opening script_path python_executable).
Notation banner := (banner script_path python_executable).

Lemma loop_body_pass (a : attempt_world) (k : nat) (inst : list string)
    (r : result (control * list string)) (evs : list event) :
  loop_body a k inst = (r, evs) ->
  pass a k inst r evs.
Proof.
  unfold loop_body. run_m.
  destruct (target a) as [[p | | msg] | ] eqn:T; run_m; cbv zeta.
  - destruct (returncode p =? 0)%Z eqn:Z; run_m;
      [apply Z.eqb_eq in Z | apply Z.eqb_neq in Z];
      (destruct (truthy (stderr p)) eqn:Tr; run_m).
    + intros [= <- <-].
      pose proof (pass_success script_path timeout assume_yes python_executable a k inst p T (or_introl Z)) as X.
      unfold success_pass in X. rewrite Tr in X. exact X.
    + intros [= <- <-].
      pose proof (pass_success script_path timeout assume_yes python_executable a k inst p T (or_introl Z)) as X.
      unfold success_pass in X. rewrite Tr in X. exact X.
    + apply truthy_true in Tr.
      destruct (parse_missing_module (stderr p)) as [[|c m]|] eqn:P; run_m.
      * intros [= <- <-]. apply pass_unrecognized; auto.
      * assert (Mi : misses a (String c m)).
        { exists p. repeat split; auto. discriminate. }
        destruct (install_package a (String c m) python_executable assume_yes)
          as [[[[] message] | e] ievs] eqn:I; run_m.
        -- intros [= <- <-]. rewrite !app_nil_r.
           exact (pass_installed script_path timeout assume_yes python_executable a k inst _ _ _ Mi I).
        -- intros [= <- <-]. rewrite !app_nil_r.
           exact (pass_install_failed script_path timeout assume_yes python_executable a k inst _ _ _ Mi I).
        -- destruct (installer_raises _ _ _ _ _ _ I) as [-> | [msg ->]]; run_m;
             intros [= <- <-].
           ++ rewrite !app_nil_r.
              exact (pass_install_cancelled script_path timeout assume_yes python_executable a k inst _ _ Mi I).
           ++ exact (pass_install_error script_path timeout assume_yes python_executable a k inst _ _ _ Mi I).
      * intros [= <- <-]. apply pass_unrecognized; auto.
    + apply truthy_false in Tr. intros [= <- <-].
      pose proof (pass_success script_path timeout assume_yes python_executable a k inst p T (or_intror Tr)) as X.
      unfold success_pass in X. rewrite Tr in X. exact X.
  - intros [= <- <-]. now apply pass_not_found.
  - intros [= <- <-]. now apply pass_spawn_error.
  - intros [= <- <-]. now apply pass_timeout.
Qed.

(** A quiet list holds no announcement, no run of the target, no banner. *)
Lemma quiet_not_announced (t : terminal_reason) (l : list event) :
  forallb quiet l = true -> existsb (announces t) l = false.
Proof.
  induction l as [|e l IH]; simpl; [reflexivity|].
  intros H. apply andb_true_iff in H as [Q H]. rewrite (IH H), orb_false_r.
  unfold quiet, is_announcement in Q.
  apply andb_true_iff in Q as [_ Q]. apply negb_true_iff in Q.
  simpl in Q. repeat (apply orb_false_iff in Q as [? Q]).
  destruct t; assumption.
Qed.

Lemma quiet_calm (l : list event) :
  forallb quiet l = true -> forallb calm l = true.
Proof.
  induction l as [|e l IH]; simpl; [reflexivity|].
  intros H. apply andb_true_iff in H as [Q H]. rewrite (IH H), andb_true_r.
  unfold quiet in Q. now apply andb_true_iff in Q as [Q _].
Qed.

Lemma calm_no_target_run (l : list event) :
  forallb calm l = true -> count is_target_run l = 0.
Proof.
  unfold count. induction l as [|e l IH]; simpl; [reflexivity|].
  intros H. apply andb_true_iff in H as [Q H].
  unfold calm in Q. apply andb_true_iff in Q as [Q _].
  apply negb_true_iff in Q. rewrite Q. auto.
Qed.

Lemma calm_no_banner (l : list event) :
  forallb calm l = true -> filter is_attempt_banner l = [].
Proof.
  induction l as [|e l IH]; simpl; [reflexivity|].
  intros H. apply andb_true_iff in H as [Q H].
  unfold calm in Q. apply andb_true_iff in Q as [_ Q].
  apply negb_true_iff in Q. rewrite Q. auto.
Qed.

Lemma installer_quiet' (a : attempt_world) (name : string)
    (r : result (bool * string)) (ievs : list event) :
  install_package a name python_executable assume_yes = (r, ievs) ->
  forallb quiet ievs = true.
Proof.
  intros I. pose proof (installer_quiet a name python_executable assume_yes) as Q.
  now rewrite I in Q.
Qed.


(** Every pass opens with its banner and one run of the target; what
    follows holds neither. *)
Lemma pass_shape (a : attempt_world) (k : nat) (inst : list string)
    (r : result (control * list string)) (evs : list event) :
  pass a k inst r evs ->
  exists rest, evs = (opening k ++ rest)%list /\ forallb calm rest = true.
Proof.
  intros [T | p T S | p T Z E P | name message ievs Mi I
          | name message ievs Mi I | name ievs Mi I | name msg ievs Mi I
          | T | msg T];
    try (apply installer_quiet', quiet_calm in I);
    unfold timeout_pass, success_pass, unrecognized_pass;
    eexists; (split; [reflexivity|]);
    cbn [forallb]; rewrite ?forallb_app, ?I;
    try destruct (truthy (stderr p)); reflexivity.
Qed.

Lemma opening_not_announced (t : terminal_reason) (k : nat) :
  existsb (announces t) (opening k) = false.
Proof. destruct t; reflexivity. Qed.

(** A pass that ends in [continue] appends the installed name and
    announces nothing. *)
Lemma pass_continue (a : attempt_world) (k : nat) (inst inst' : list string)
    (evs : list event) :
  pass a k inst (Ok (Continue, inst')) evs ->
  (forall t, existsb (announces t) evs = false)
  /\ exists name message ievs,
       misses a name /\ inst' = (inst ++ [name])%list
       /\ install_package a name python_executable assume_yes
          = (Ok (true, message), ievs)
       /\ evs = (opening k ++ detected name :: ievs)%list.
Proof.
  inversion 1; subst. split; [|eauto 10]. intros t.
  match goal with I : install_package _ _ _ _ = _ |- _ =>
    apply installer_quiet', (quiet_not_announced t) in I;
    rewrite existsb_app, opening_not_announced; cbn [existsb orb];
    rewrite I
  end.
  destruct t; reflexivity.
Qed.

(** A pass that ends in [break] leaves the list alone and announces
    neither an aborted installation nor the retry limit. *)
Lemma pass_break (a : attempt_world) (k : nat) (inst inst' : list string)
    (evs : list event) :
  pass a k inst (Ok (Break, inst')) evs ->
  inst' = inst
  /\ existsb (announces InstallFailed) evs = false
  /\ existsb (announces RetryLimitExceeded) evs = false.
Proof.
  inversion 1; subst; (split; [reflexivity|]);
    unfold timeout_pass, success_pass, unrecognized_pass;
    rewrite !existsb_app; try destruct (truthy (stderr p)); split; reflexivity.
Qed.

(** A pass that raises exits with status 1 and announces none of the
    reasons for which the function returns. *)
Lemma pass_raise (a : attempt_world) (k : nat) (inst : list string)
    (e : exn) (evs : list event) :
  pass a k inst (Raise e) evs ->
  e = SystemExit 1
  /\ existsb (announces Success) evs = false
  /\ existsb (announces TimeoutAssumedSuccess) evs = false
  /\ existsb (announces UnrecognizedFailure) evs = false
  /\ existsb (announces RetryLimitExceeded) evs = false.
Proof.
  inversion 1; subst; (split; [reflexivity|]);
    try match goal with I : install_package _ _ _ _ = _ |- _ =>
      apply installer_quiet' in I;
      pose proof (quiet_not_announced Success _ I);
      pose proof (quiet_not_announced TimeoutAssumedSuccess _ I);
      pose proof (quiet_not_announced UnrecognizedFailure _ I);
      pose proof (quiet_not_announced RetryLimitExceeded _ I)
    end;
    rewrite !existsb_app; cbn [existsb orb]; rewrite ?existsb_app;
    repeat match goal with H : existsb _ _ = false |- _ => rewrite H; clear H end;
    repeat split; reflexivity.
Qed.

(** When a raising pass announces an aborted installation, the two abort
    lines are the last thing it does. *)
Lemma pass_raise_abort (a : attempt_world) (k : nat) (inst : list string)
    (e : exn) (evs : list event) :
  pass a k inst (Raise e) evs ->
  existsb (announces InstallFailed) evs = true ->
  exists name message ievs,
    misses a name
    /\ install_package a name python_executable assume_yes
       = (Ok (false, message), ievs)
    /\ evs = (opening k ++ detected name :: ievs ++ abort_lines message)%list.
Proof.
  inversion 1; subst; try (intros _; eauto 10; fail);
    try match goal with I : install_package _ _ _ _ = _ |- _ =>
      apply installer_quiet', (quiet_not_announced InstallFailed) in I
    end;
    rewrite !existsb_app; cbn [existsb orb]; rewrite ?existsb_app;
    repeat match goal with H : existsb _ _ = false |- _ => rewrite H; clear H end;
    cbn; discriminate.
Qed.

End PassProofs.

(** ** The loop *)

Lemma for_each_print (f : string -> string) (l : list string) :
  for_each l (fun pkg => print (f pkg))
  = (Ok tt, map (fun pkg => Print (f pkg)) l).
Proof.
  induction l as [|x l IH]; [reflexivity|].
  cbn [for_each map]. rewrite IH. reflexivity.
Qed.

(** The code after the loop never raises: it logs the retry-limit line when
    the counter is at the ceiling, and prints the summary. *)
Lemma epilogue_eq (n : nat) (inst : list string) :
  epilogue n inst
  = (Ok tt,
     ((if (max_retries <=? n)%nat
       then [Log CRITICAL (snd (announcement RetryLimitExceeded))]
       else [])
      ++ summary inst)%list).
Proof.
  unfold epilogue, summary.
  destruct (max_retries <=? n)%nat; destruct inst as [|x inst];
    rewrite ?for_each_print; reflexivity.
Qed.

Lemma summary_not_announced (t : terminal_reason) (inst : list string) :
  existsb (announces t) (summary inst) = false.
Proof.
  unfold summary. cbn [existsb app]. rewrite existsb_app.
  assert (M : forall l, existsb (announces t)
                          (map (fun pkg => Print ("  - " ++ pkg)) l) = false)
    by (induction l; auto).
  destruct inst; cbn [existsb]; rewrite ?M; destruct t; reflexivity.
Qed.

Lemma epilogue_announces (t : terminal_reason) (n : nat) (inst : list string) :
  existsb (announces t) (snd (epilogue n inst))
  = match t with
    | RetryLimitExceeded => (max_retries <=? n)%nat
    | _ => false
    end.
Proof.
  rewrite epilogue_eq. cbn [snd]. rewrite existsb_app, summary_not_announced.
  destruct (max_retries <=? n)%nat, t; reflexivity.
Qed.

Section LoopProofs.

Variable script_path : string.
Variable timeout : Z.
Variable assume_yes : bool.
Variable python_executable : string.
Variable w : world.

Local Set Warnings "-notation-for-abbreviation".

Notation pass := (pass script_path timeout assume_yes python_executable).
Notation body :=
  (loop_body script_path timeout assume_yes python_executable).
Notation loop :=
  (while_loop script_path timeout assume_yes python_executable w).
Notation resolve :=
  (resolve_dependencies script_path timeout assume_yes python_executable w).
Notation opening := (opening script_path python_executable).
Notation banner := (banner script_path python_executable).

Lemma parse_empty : parse_missing_module EmptyString = None.
Proof. reflexivity. Qed.

(** The relation [pass] is the function [loop_body]. *)
Lemma pass_loop_body (a : attempt_world) (k : nat) (inst : list string)
    (r : result (control * list string)) (evs : list event) :
  pass a k inst r evs -> body a k inst = (r, evs).
Proof.
  assert (Miss : forall name, misses a name ->
            exists p c m, target a = Within (Exited p)
                          /\ (returncode p =? 0)%Z = false
                          /\ truthy (stderr p) = true
                          /\ name = String c m
                          /\ parse_missing_module (stderr p) = Some (String c m)).
  { intros name [p [T [Z [P N]]]]. destruct name as [|c m]; [now contradiction N|].
    exists p, c, m. repeat split; auto.
    - now apply Z.eqb_neq.
    - apply truthy_true. intros E. rewrite E, parse_empty in P. discriminate. }
  intros [T | p T S | p T Z E P | name message ievs Mi I
          | name message ievs Mi I | name ievs Mi I | name msg ievs Mi I
          | T | msg T];
    try (destruct (Miss _ Mi) as [p [c [m [T [Z [Tr [-> P]]]]]]]);
    unfold loop_body; run_m; rewrite T; run_m; cbv zeta.
  - reflexivity.
  - unfold success_pass.
    destruct S as [Z | E].
    + rewrite Z. cbn [Z.eqb]. run_m. destruct (truthy (stderr p)); reflexivity.
    + rewrite E. cbn [truthy]. destruct (returncode p =? 0)%Z; reflexivity.
  - apply Z.eqb_neq in Z. apply truthy_true in E. rewrite Z, E. run_m.
    destruct P as [-> | ->]; reflexivity.
  - rewrite Z, Tr. run_m. rewrite P. run_m. rewrite I. run_m.
    now rewrite !app_nil_r.
  - rewrite Z, Tr. run_m. rewrite P. run_m. rewrite I. run_m.
    now rewrite !app_nil_r.
  - rewrite Z, Tr. run_m. rewrite P. run_m. rewrite I. run_m.
    now rewrite !app_nil_r.
  - rewrite Z, Tr. run_m. rewrite P. run_m. rewrite I. run_m.
    reflexivity.
  - reflexivity.
  - reflexivity.
Qed.

Lemma pass_functional (a : attempt_world) (k : nat) (inst : list string)
    (r r' : result (control * list string)) (evs evs' : list event) :
  pass a k inst r evs -> pass a k inst r' evs' -> r = r' /\ evs = evs'.
Proof.
  intros H H'. apply pass_loop_body in H, H'. rewrite H in H'.
  now injection H' as -> ->.
Qed.

(** A pass continues exactly when the target misses a module and the
    installer installs it. *)
Lemma continues_spec (a : attempt_world) (k : nat) :
  continues script_path timeout assume_yes python_executable a k = true <->
  exists name message ievs,
    misses a name
    /\ install_package a name python_executable assume_yes
       = (Ok (true, message), ievs).
Proof.
  unfold continues. split.
  - destruct (body a k []) as [[[[|] inst'] | e] evs] eqn:B;
      cbn [fst]; try discriminate.
    intros _. apply loop_body_pass, pass_continue in B.
    destruct B as [_ [name [message [ievs [Mi [_ [I _]]]]]]]. eauto.
  - intros [name [message [ievs [Mi I]]]].
    rewrite (pass_loop_body _ _ _ _ _
               (pass_installed script_path timeout assume_yes
                  python_executable a k [] name message ievs Mi I)).
    reflexivity.
Qed.

Lemma pass_counts (a : attempt_world) (k : nat) (inst : list string)
    (r : result (control * list string)) (evs : list event) :
  pass a k inst r evs ->
  count is_target_run evs = 1 /\ filter is_attempt_banner evs = [banner k].
Proof.
  intros H. apply pass_shape in H as [rest [-> C]].
  unfold count. rewrite !filter_app, length_app.
  fold (count is_target_run rest).
  rewrite (calm_no_target_run _ C), (calm_no_banner _ C). split; reflexivity.
Qed.

Lemma epilogue_calm (n : nat) (inst : list string) :
  forallb calm (snd (epilogue n inst)) = true.
Proof.
  rewrite epilogue_eq. cbn [snd]. rewrite forallb_app. unfold summary.
  cbn [forallb app]. rewrite forallb_app.
  assert (M : forall l, forallb calm
                          (map (fun pkg => Print ("  - " ++ pkg)) l) = true)
    by (induction l; auto).
  destruct (max_retries <=? n)%nat, inst; cbn [forallb]; rewrite ?M; reflexivity.
Qed.

(** Induction over the passes of the loop: a property of (counter, list,
    final state) holds of every run of the loop as soon as it holds when the
    guard fails, when a pass breaks or raises, and is carried backwards over
    a pass that continues. *)
Lemma while_loop_cases (P : nat -> list string -> final -> Prop) :
  (forall n inst,
      max_retries <= n -> P n inst (finish n inst (epilogue n inst))) ->
  (forall n inst inst' evs,
      n < max_retries ->
      pass (w (n + 1)) (n + 1) inst (Ok (Break, inst')) evs ->
      P n inst (after evs (finish (n + 1) inst' (epilogue (n + 1) inst')))) ->
  (forall n inst e evs,
      n < max_retries ->
      pass (w (n + 1)) (n + 1) inst (Raise e) evs ->
      P n inst (finish (n + 1) inst (Raise e, evs))) ->
  (forall n inst inst' evs f,
      n < max_retries ->
      pass (w (n + 1)) (n + 1) inst (Ok (Continue, inst')) evs ->
      P (n + 1) inst' f -> P n inst (after evs f)) ->
  forall fuel n inst f, loop fuel n inst = Some f -> P n inst f.
Proof.
  intros Hexit Hbreak Hraise Hcont.
  induction fuel as [|fuel IH]; intros n inst f; cbn [while_loop];
    destruct (Nat.ltb_spec n max_retries) as [L | L];
    try discriminate;
    try (intros [= <-]; now apply Hexit).
  cbv zeta.
  destruct (body (w (n + 1)) (n + 1) inst) as [[[[|] inst'] | e] evs] eqn:B;
    apply loop_body_pass in B.
  - destruct (loop fuel (n + 1) inst') as [f'|] eqn:W; cbn [option_map];
      [|discriminate].
    intros [= <-]. eapply Hcont; eauto.
  - intros [= <-]. now apply Hbreak.
  - intros [= <-]. now apply Hraise.
Qed.

(** The loop halts: [max_retries - retries] units of fuel are enough. *)
Lemma while_loop_total (fuel n : nat) (inst : list string) :
  max_retries <= fuel + n -> exists f, loop fuel n inst = Some f.
Proof.
  revert n inst. induction fuel as [|fuel IH]; intros n inst Hf;
    cbn [while_loop];
    destruct (Nat.ltb_spec n max_retries) as [L | L];
    try (eexists; reflexivity); try lia.
  cbv zeta.
  destruct (body (w (n + 1)) (n + 1) inst) as [[[[|] inst'] | e] evs];
    try (eexists; reflexivity).
  destruct (IH (n + 1) inst' ltac:(lia)) as [f ->]. eexists; reflexivity.
Qed.


(** The counter counts the passes: it never leaves [0..max_retries], the
    target is run once per unit of it, and the banners carry its successive
    values. *)
Lemma loop_counts (fuel n : nat) (inst : list string) (f : final) :
  loop fuel n inst = Some f ->
  n <= max_retries ->
  n <= retries f <= max_retries
  /\ count is_target_run (trace f) = retries f - n
  /\ filter is_attempt_banner (trace f)
     = map banner (seq (n + 1) (retries f - n)).
Proof.
  revert fuel n inst f.
  apply (while_loop_cases
           (fun n inst f =>
              n <= max_retries ->
              n <= retries f <= max_retries
              /\ count is_target_run (trace f) = retries f - n
              /\ filter is_attempt_banner (trace f)
                 = map banner (seq (n + 1) (retries f - n)))).
  - intros n inst L Le. cbn [finish retries trace].
    pose proof (epilogue_calm n inst) as C.
    rewrite (calm_no_target_run _ C), (calm_no_banner _ C), Nat.sub_diag.
    repeat split; auto.
  - intros n inst inst' evs L B _. cbn [after finish retries trace].
    apply pass_counts in B as [Bc Bb].
    pose proof (epilogue_calm (n + 1) inst') as C.
    unfold count in *. rewrite !filter_app, length_app, Bc, Bb.
    fold (count is_target_run (snd (epilogue (n + 1) inst'))).
    rewrite (calm_no_target_run _ C), (calm_no_banner _ C).
    replace (n + 1 - n) with 1 by lia. repeat split; auto; lia.
  - intros n inst e evs L B _. cbn [finish retries trace snd].
    apply pass_counts in B as [Bc Bb]. rewrite Bc, Bb.
    replace (n + 1 - n) with 1 by lia. repeat split; auto; lia.
  - intros n inst inst' evs f L B IH _. cbn [after retries trace].
    destruct (IH ltac:(lia)) as [[Lo Hi] [Ic Ib]].
    apply pass_counts in B as [Bc Bb].
    unfold count in *. rewrite !filter_app, length_app, Bc, Bb, Ic, Ib.
    replace (retries f - n) with (S (retries f - (n + 1))) by lia.
    cbn [seq map app]. replace (S (n + 1)) with (n + 1 + 1) by lia.
    repeat split; auto; lia.
Qed.

(** When every pass continues, the loop leaves by its guard at the ceiling
    and logs the retry-limit line. *)
Lemma loop_exhausts (fuel n : nat) (inst : list string) (f : final) :
  loop fuel n inst = Some f ->
  n <= max_retries ->
  (forall k, n < k <= max_retries ->
             continues script_path timeout assume_yes python_executable
               (w k) k = true) ->
  outcome f = Ok tt /\ retries f = max_retries
  /\ reached RetryLimitExceeded (trace f) = true.
Proof.
  revert fuel n inst f.
  apply (while_loop_cases
           (fun n inst f =>
              n <= max_retries ->
              (forall k, n < k <= max_retries ->
                         continues script_path timeout assume_yes
                           python_executable (w k) k = true) ->
              outcome f = Ok tt /\ retries f = max_retries
              /\ reached RetryLimitExceeded (trace f) = true)).
  - intros n inst L Le _. cbn [finish outcome retries trace]. unfold reached.
    rewrite epilogue_announces, epilogue_eq.
    repeat split; [lia|]. rewrite andb_true_r. apply Nat.leb_le. exact L.
  - intros n inst inst' evs L B _ C. exfalso.
    specialize (C (n + 1) ltac:(lia)).
    apply continues_spec in C as [name [message [ievs [Mi I]]]].
    pose proof (pass_installed script_path timeout assume_yes python_executable
                  (w (n + 1)) (n + 1) inst name message ievs Mi I) as B'.
    destruct (pass_functional _ _ _ _ _ _ _ B B') as [[=] _].
  - intros n inst e evs L B _ C. exfalso.
    specialize (C (n + 1) ltac:(lia)).
    apply continues_spec in C as [name [message [ievs [Mi I]]]].
    pose proof (pass_installed script_path timeout assume_yes python_executable
                  (w (n + 1)) (n + 1) inst name message ievs Mi I) as B'.
    destruct (pass_functional _ _ _ _ _ _ _ B B') as [[=] _].
  - intros n inst inst' evs f L B IH _ C. cbn [after outcome retries trace].
    destruct (IH ltac:(lia) ltac:(intros; apply C; lia)) as [O [R A]].
    repeat split; auto. unfold reached in *.
    rewrite existsb_app. apply andb_true_iff in A as [A _].
    now rewrite A, orb_true_r.
Qed.

(** C1. Every execution of the loop halts; its counter ends between 0 and
    20; the target was run exactly once per unit of the counter, and the
    passes carry the counter values 1, 2, ..., one more each time. If all
    20 passes end in [continue] (none reaches a success or abort state), the
    function returns after the 20th with the retry-limit line logged: there
    is no 21st run of the target. *)
Theorem retries_bounded_by_ceiling :
  exists f,
    resolve = Some f
    /\ retries f <= 20
    /\ count is_target_run (trace f) = retries f
    /\ filter is_attempt_banner (trace f) = map banner (seq 1 (retries f))
    /\ ((forall k, 1 <= k <= 20 ->
                   continues script_path timeout assume_yes python_executable
                     (w k) k = true) ->
        outcome f = Ok tt /\ retries f = 20
        /\ reached RetryLimitExceeded (trace f) = true
        /\ count is_target_run (trace f) = 20).
Proof.
  unfold resolve_dependencies.
  destruct (while_loop_total max_retries 0 [] ltac:(lia)) as [f W].
  exists f. split; [exact W|].
  destruct (loop_counts _ _ _ _ W ltac:(unfold max_retries; lia))
    as [[_ Hi] [Ic Ib]].
  rewrite Nat.sub_0_r in Ic, Ib.
  split; [exact Hi|]. split; [exact Ic|]. split; [exact Ib|].
  intros C.
  destruct (loop_exhausts _ _ _ _ W ltac:(unfold max_retries; lia)) as [O [R A]].
  { intros k Hk. apply C. unfold max_retries in Hk. lia. }
  repeat split; auto. rewrite Ic. exact R.
Qed.

(** A pass that can only break is the last one, and the passes before it
    announce nothing. *)
Lemma breaking_pass_is_last (fuel n : nat) (inst : list string) (f : final)
    (k : nat) (E : list event) :
  loop fuel n inst = Some f ->
  n < k <= retries f ->
  (forall inst, pass (w k) k inst (Ok (Break, inst)) E) ->
  retries f = k /\ outcome f = Ok tt
  /\ exists pre,
       (forall t, existsb (announces t) pre = false)
       /\ trace f
          = (pre ++ E ++ snd (epilogue k (installed_packages f)))%list.
Proof.
  intros W. revert k E. revert fuel n inst f W.
  apply (while_loop_cases
           (fun n inst f =>
              forall k E,
                n < k <= retries f ->
                (forall inst, pass (w k) k inst (Ok (Break, inst)) E) ->
                retries f = k /\ outcome f = Ok tt
                /\ exists pre,
                     (forall t, existsb (announces t) pre = false)
                     /\ trace f
                        = (pre ++ E
                           ++ snd (epilogue k (installed_packages f)))%list)).
  - intros n inst L k E Hk _. cbn [finish retries] in Hk. exfalso. lia.
  - intros n inst inst' evs L B k E Hk Hb.
    cbn [after finish retries outcome trace installed_packages] in *.
    assert (k = n + 1) as -> by lia.
    destruct (pass_functional _ _ _ _ _ _ _ B (Hb inst)) as [[= ->] ->].
    rewrite epilogue_eq. repeat split. exists []. split; [reflexivity|].
    cbn [fst snd app]. reflexivity.
  - intros n inst e evs L B k E Hk Hb. cbn [finish retries] in Hk.
    assert (k = n + 1) as -> by lia.
    destruct (pass_functional _ _ _ _ _ _ _ B (Hb inst)) as [[=] _].
  - intros n inst inst' evs f L B IH k E Hk Hb.
    cbn [after retries outcome trace installed_packages] in *.
    destruct (Nat.eq_dec k (n + 1)) as [-> | Ne].
    + destruct (pass_functional _ _ _ _ _ _ _ B (Hb inst)) as [[=] _].
    + destruct (IH k E ltac:(lia) Hb) as [R [O [pre [Q T]]]].
      repeat split; auto. exists (evs ++ pre)%list. split.
      * intros t. rewrite existsb_app, Q.
        apply pass_continue in B as [B _]. now rewrite B.
      * now rewrite T, app_assoc.
Qed.

(** What is announced in an execution whose pass [k] can only break. *)
Lemma last_pass_announces (fuel n : nat) (inst : list string) (f : final)
    (k : nat) (E : list event) (t : terminal_reason) :
  loop fuel n inst = Some f ->
  n < k <= retries f ->
  (forall inst, pass (w k) k inst (Ok (Break, inst)) E) ->
  existsb (announces t) (trace f)
  = existsb (announces t) E
    || match t with
       | RetryLimitExceeded => (max_retries <=? k)%nat
       | _ => false
       end.
Proof.
  intros W Hk Hb.
  destruct (breaking_pass_is_last _ _ _ _ _ _ W Hk Hb) as [_ [_ [pre [Q ->]]]].
  now rewrite !existsb_app, Q, epilogue_announces.
Qed.

(** *** Timeout *)

Lemma pass_when_expired (a : attempt_world) (k : nat) (inst : list string) :
  target a = Expired ->
  pass a k inst (Ok (Break, inst))
    (timeout_pass script_path timeout python_executable k).
Proof. apply pass_timeout. Qed.

(** C6. Whenever running the target times out, that pass ends the loop by
    [break] after the three timeout lines, with no prompt, no pip and no
    other installer event; and in any execution, a pass [k] that was run and
    timed out is the last one: the function returns, TimeoutAssumedSuccess
    is announced and UnrecognizedFailure is not. *)
Theorem timeout_is_assumed_success :
  (forall a k inst,
      target a = Expired ->
      body a k inst
      = (Ok (Break, inst),
         timeout_pass script_path timeout python_executable k)
      /\ existsb installer_sign
           (timeout_pass script_path timeout python_executable k) = false)
  /\ (forall f k,
         resolve = Some f ->
         1 <= k <= retries f ->
         target (w k) = Expired ->
         retries f = k /\ outcome f = Ok tt
         /\ reached TimeoutAssumedSuccess (trace f) = true
         /\ reached UnrecognizedFailure (trace f) = false).
Proof.
  split.
  - intros a k inst T. split; [|reflexivity].
    now apply pass_loop_body, pass_when_expired.
  - intros f k W Hk T.
    assert (Hb : forall inst,
               pass (w k) k inst (Ok (Break, inst))
                 (timeout_pass script_path timeout python_executable k))
      by (intros; now apply pass_when_expired).
    destruct (breaking_pass_is_last max_retries 0 [] f k _ W ltac:(lia) Hb)
      as [R [O _]].
    unfold reached.
    rewrite !(last_pass_announces max_retries 0 [] f k _ _ W ltac:(lia) Hb).
    repeat split; auto.
Qed.

(** *** Unrecognized failure *)

(** C7. Whenever the parser is consulted (the target exited with a nonzero
    status and a non-empty stderr) and finds no template, that pass ends
    the loop by [break] after logging the unrecognized-failure lines and
    printing the captured stdout and stderr as they are, with no installer
    event; and in any execution, such a pass [k] is the last one: the
    function returns with UnrecognizedFailure announced. *)
Theorem no_match_is_unrecognized_failure :
  (forall a k inst p,
      target a = Within (Exited p) ->
      returncode p <> 0%Z -> stderr p <> EmptyString ->
      parse_missing_module (stderr p) = None ->
      body a k inst
      = (Ok (Break, inst),
         unrecognized_pass script_path python_executable k p)
      /\ existsb installer_sign
           (unrecognized_pass script_path python_executable k p) = false
      /\ In (Print (NL ++ "--- STDOUT ---" ++ NL ++ stdout p))
           (unrecognized_pass script_path python_executable k p)
      /\ In (Print (NL ++ "--- STDERR ---" ++ NL ++ stderr p))
           (unrecognized_pass script_path python_executable k p))
  /\ (forall f k p,
         resolve = Some f ->
         1 <= k <= retries f ->
         target (w k) = Within (Exited p) ->
         returncode p <> 0%Z -> stderr p <> EmptyString ->
         parse_missing_module (stderr p) = None ->
         retries f = k /\ outcome f = Ok tt
         /\ reached UnrecognizedFailure (trace f) = true
         /\ In (Print (NL ++ "--- STDOUT ---" ++ NL ++ stdout p)) (trace f)
         /\ In (Print (NL ++ "--- STDERR ---" ++ NL ++ stderr p)) (trace f)).
Proof.
  split.
  - intros a k inst p T Z E P. split.
    + apply pass_loop_body, pass_unrecognized; auto.
    + split; [reflexivity|]. cbn. auto 10.
  - intros f k p W Hk T Z E P.
    assert (Hb : forall inst,
               pass (w k) k inst (Ok (Break, inst))
                 (unrecognized_pass script_path python_executable k p))
      by (intros; apply pass_unrecognized; auto).
    destruct (breaking_pass_is_last max_retries 0 [] f k _ W ltac:(lia) Hb)
      as [R [O [pre [_ Tr]]]].
    unfold reached.
    rewrite !(last_pass_announces max_retries 0 [] f k _ _ W ltac:(lia) Hb).
    repeat split; auto; rewrite Tr; apply in_or_app; right;
      apply in_or_app; left; cbn; auto 10.
Qed.

(** *** Silent crash *)

(** C9. A run that exits with a nonzero status and an empty stderr takes
    the pass of a clean run: the body of the loop does on it exactly what it
    does on the same run with exit status 0, namely the success lines, the
    captured stdout and [break]; and in any execution, such a pass [k] is
    the last one, with Success announced. A run with a nonzero status and a
    non-empty stderr never announces Success in its pass. *)
Theorem silent_crash_is_success :
  (forall a a0 k inst p,
      target a = Within (Exited p) ->
      returncode p <> 0%Z -> stderr p = EmptyString ->
      target a0 = Within (Exited (with_returncode 0 p)) ->
      body a k inst = body a0 k inst
      /\ body a k inst
         = (Ok (Break, inst), success_pass script_path python_executable k p))
  /\ (forall f k p,
         resolve = Some f ->
         1 <= k <= retries f ->
         target (w k) = Within (Exited p) ->
         returncode p <> 0%Z -> stderr p = EmptyString ->
         retries f = k /\ outcome f = Ok tt
         /\ reached Success (trace f) = true)
  /\ (forall a k inst p,
         target a = Within (Exited p) ->
         returncode p <> 0%Z -> stderr p <> EmptyString ->
         reached Success (snd (body a k inst)) = false).
Proof.
  split; [|split].
  - intros a a0 k inst p T Z E T0.
    rewrite (pass_loop_body _ _ _ _ _
               (pass_success script_path timeout assume_yes python_executable
                  a k inst p T (or_intror E))).
    rewrite (pass_loop_body _ _ _ _ _
               (pass_success script_path timeout assume_yes python_executable
                  a0 k inst (with_returncode 0 p) T0 (or_introl eq_refl))).
    split; reflexivity.
  - intros f k p W Hk T Z E.
    assert (Hb : forall inst,
               pass (w k) k inst (Ok (Break, inst))
                 (success_pass script_path python_executable k p))
      by (intros; apply pass_success; auto).
    destruct (breaking_pass_is_last max_retries 0 [] f k _ W ltac:(lia) Hb)
      as [R [O _]].
    unfold reached.
    rewrite !(last_pass_announces max_retries 0 [] f k _ _ W ltac:(lia) Hb).
    repeat split; auto.
  - intros a k inst p T Z E.
    destruct (body a k inst) as [[[[|] inst'] | e] evs] eqn:B;
      apply loop_body_pass in B; cbn [snd]; unfold reached;
      rewrite andb_true_r.
    + now apply pass_continue in B as [B _].
    + inversion B as [T' | p' T' S | p' T' Z' E' P | | | | | | ]; subst;
        rewrite T in T'; try discriminate; injection T' as <-.
      * destruct S; congruence.
      * reflexivity.
    + now apply pass_raise in B as [_ [B _]].
Qed.

(** *** Failed and declined installations *)

Lemma abort_lines_announced (pre : list event) (message : string) :
  existsb (announces InstallFailed) (pre ++ abort_lines message) = true.
Proof. rewrite existsb_app. cbn. apply orb_true_r. Qed.

(** C2, amended. If every attempt reports a recognized missing module and
    every installation fails, the first failed installation ends the
    execution: the process exits with status 1 in attempt 1, after one run of
    the target, with the aborted installation announced and the retry limit
    not reached. The announcement reads as InstallDeclined exactly when the
    operator was asked and refused, and as InstallFailed otherwise (always
    so when no prompt is shown), which is exactly when pip was run. *)
Theorem install_failure_ends_first_attempt :
  (forall k, 1 <= k ->
             exists name,
               misses (w k) name
               /\ install_fails (w k) name python_executable assume_yes) ->
  exists f,
    resolve = Some f
    /\ outcome f = Raise (SystemExit 1)
    /\ retries f = 1
    /\ count is_target_run (trace f) = 1
    /\ reached RetryLimitExceeded (trace f) = false
    /\ (reached InstallFailed (trace f) || reached InstallDeclined (trace f))
       = true
    /\ (assume_yes = true -> reached InstallFailed (trace f) = true)
    /\ reached InstallDeclined (trace f) = declines (w 1) assume_yes
    /\ reached InstallFailed (trace f) = negb (declines (w 1) assume_yes)
    /\ existsb is_pip_run (trace f) = negb (declines (w 1) assume_yes).
Proof.
  intros H. destruct (H 1 (le_n 1)) as [name [Mi [message If]]].
  destruct (install_package (w 1) name python_executable assume_yes)
    as [r ievs] eqn:I.
  cbn [fst] in If. subst r.
  pose proof (pass_install_failed script_path timeout assume_yes
                python_executable (w 1) 1 [] name message ievs Mi I) as B.
  pose proof (pass_loop_body _ _ _ _ _ B) as Eq.
  unfold resolve_dependencies.
  cbn [while_loop max_retries Nat.ltb Nat.leb Nat.add]. rewrite Eq.
  eexists. split; [reflexivity|]. cbn [finish outcome retries trace fst snd].
  pose proof B as Br. apply pass_raise in Br as [_ [_ [_ [_ NoLimit]]]].
  destruct (pass_counts _ _ _ _ _ B) as [Runs _].
  assert (Ab : existsb (announces InstallFailed)
                 (opening 1 ++ detected name :: ievs ++ abort_lines message)
               = true).
  { change (detected name :: ievs ++ abort_lines message)%list
      with ((detected name :: ievs) ++ abort_lines message)%list.
    rewrite app_assoc. apply abort_lines_announced. }
  assert (N : name <> EmptyString) by (now destruct Mi as [p [_ [_ [_ N]]]]).
  destruct (installer_failure_kind _ _ _ _ _ _ N I) as [Dw Pr].
  destruct (abort_pass_reads script_path python_executable 1 name message
              ievs) as [Rd Rp].
  repeat split; auto.
  - unfold reached. now rewrite NoLimit.
  - unfold reached.
    change (announces InstallDeclined) with (announces InstallFailed).
    rewrite Ab. cbn [andb]. apply orb_negb_l.
  - intros ->. unfold reached. rewrite Ab. cbn [andb].
    pose proof (installer_unprompted_no_decline (w 1) name python_executable)
      as Q.
    rewrite I in Q. cbn [snd] in Q.
    rewrite existsb_app. cbn [existsb]. rewrite existsb_app, Q. reflexivity.
  - unfold reached.
    change (announces InstallDeclined) with (announces InstallFailed).
    now rewrite Ab, Rd, Dw.
  - unfold reached. now rewrite Ab, Rd, Dw.
  - now rewrite Rp, Pr.
Qed.

(** *** The summary report *)

Lemma summary_ends_with_rule (pkgs : list string) :
  exists body,
    summary pkgs
    = (body ++ [Print "---------------------------------------"])%list.
Proof. unfold summary. eexists. apply app_comm_cons. Qed.

Lemma abort_is_not_summary (pre pre' : list event) (message : string)
    (pkgs : list string) :
  (pre ++ abort_lines message)%list <> (pre' ++ summary pkgs)%list.
Proof.
  destruct (summary_ends_with_rule pkgs) as [body ->].
  change (abort_lines message)
    with ([Log ERROR ("Error: " ++ message)]
          ++ [Log CRITICAL "Aborting due to installation failure."])%list.
  rewrite !app_assoc. intros E. apply app_inj_tail in E as [_ E].
  discriminate.
Qed.

(** Every execution either returns, with the summary of the final list as
    its last output and no aborted installation announced, or exits with
    status 1, with none of the returning reasons announced and, when an
    aborted installation is announced, the abort lines as its last
    output. *)
Lemma loop_outcome (fuel n : nat) (inst : list string) (f : final) :
  loop fuel n inst = Some f ->
  (outcome f = Ok tt
   /\ (exists pre, trace f = (pre ++ summary (installed_packages f))%list)
   /\ existsb (announces InstallFailed) (trace f) = false)
  \/ (outcome f = Raise (SystemExit 1)
      /\ (forall t, t <> InstallDeclined -> t <> InstallFailed ->
                    existsb (announces t) (trace f) = false)
      /\ (existsb (announces InstallFailed) (trace f) = true ->
          exists pre message, trace f = (pre ++ abort_lines message)%list)).
Proof.
  revert fuel n inst f.
  apply (while_loop_cases
    (fun n inst f =>
       (outcome f = Ok tt
        /\ (exists pre, trace f = (pre ++ summary (installed_packages f))%list)
        /\ existsb (announces InstallFailed) (trace f) = false)
       \/ (outcome f = Raise (SystemExit 1)
           /\ (forall t, t <> InstallDeclined -> t <> InstallFailed ->
                         existsb (announces t) (trace f) = false)
           /\ (existsb (announces InstallFailed) (trace f) = true ->
               exists pre message,
                 trace f = (pre ++ abort_lines message)%list)))).
  - intros n inst L. left.
    cbn [finish outcome trace installed_packages].
    rewrite epilogue_announces, epilogue_eq. cbn [fst snd]. eauto.
  - intros n inst inst' evs L B. left.
    cbn [after finish outcome trace installed_packages].
    pose proof B as Bb. apply pass_break in Bb as [_ [NoAbort _]].
    rewrite existsb_app, NoAbort, epilogue_announces, epilogue_eq.
    cbn [fst snd]. repeat split; auto. rewrite app_assoc. eauto.
  - intros n inst e evs L B. right.
    cbn [finish outcome trace fst snd].
    pose proof B as Br. apply pass_raise in Br as [-> [S [T [U R]]]].
    split; [reflexivity|]. split.
    + intros [] ? ?; congruence.
    + intros Ab.
      apply pass_raise_abort in B as [name [message [ievs [_ [_ ->]]]]];
        [|exact Ab].
      exists (opening (n + 1) ++ detected name :: ievs)%list, message.
      now rewrite <- app_assoc.
  - intros n inst inst' evs f L B IH.
    cbn [after outcome trace installed_packages].
    apply pass_continue in B as [Q _].
    destruct IH as [[O [[pre T] NoAbort]] | [O [None Ab]]]; [left | right].
    + repeat split; auto.
      * exists (evs ++ pre)%list. now rewrite T, app_assoc.
      * now rewrite existsb_app, Q, NoAbort.
    + repeat split; auto.
      * intros t N1 N2. now rewrite existsb_app, Q, None.
      * rewrite existsb_app, Q. cbn [orb]. intros A.
        destruct (Ab A) as [pre [message T]].
        exists (evs ++ pre)%list, message. now rewrite T, app_assoc.
Qed.

(** The events of a pass are the same for every list of installed
    packages. *)
Lemma pass_events_any_list (a : attempt_world) (k : nat) (inst : list string)
    (r : result (control * list string)) (evs : list event) :
  pass a k inst r evs ->
  pass_events script_path timeout assume_yes python_executable a k = evs.
Proof.
  intros H. unfold pass_events.
  assert (exists r', pass a k [] r' evs) as [r' H'].
  { destruct H as [T | p T S | p T Z E P | name message ievs Mi I
                   | name message ievs Mi I | name ievs Mi I
                   | name msg ievs Mi I | T | msg T].
    - eexists. now apply pass_timeout.
    - eexists. now apply pass_success.
    - eexists. now apply pass_unrecognized.
    - eexists. eapply pass_installed; eauto.
    - eexists. eapply pass_install_failed; eauto.
    - eexists. eapply pass_install_cancelled; eauto.
    - eexists. eapply pass_install_error; eauto.
    - eexists. now apply pass_not_found.
    - eexists. now apply pass_spawn_error. }
  now rewrite (pass_loop_body _ _ _ _ _ H').
Qed.

Lemma passes_succ (n : nat) :
  passes script_path timeout assume_yes python_executable w (S n)
  = (passes script_path timeout assume_yes python_executable w n
     ++ pass_events script_path timeout assume_yes python_executable
          (w (S n)) (S n))%list.
Proof.
  unfold passes. rewrite seq_S, flat_map_app. cbn [flat_map Nat.add].
  now rewrite app_nil_r.
Qed.

(** The trace of an execution is made of the events of its passes, one
    after the other, followed by those of the code after the loop when the
    function returns, and by nothing when it does not. *)
Lemma loop_trace (fuel n : nat) (inst : list string) (f : final) :
  loop fuel n inst = Some f ->
  n <= retries f
  /\ trace f
     = (flat_map
          (fun k =>
             pass_events script_path timeout assume_yes python_executable
               (w k) k)
          (seq (n + 1) (retries f - n))
        ++ match outcome f with
           | Ok _ => snd (epilogue (retries f) (installed_packages f))
           | Raise _ => []
           end)%list.
Proof.
  revert fuel n inst f.
  apply (while_loop_cases
    (fun n inst f =>
       n <= retries f
       /\ trace f
          = (flat_map
               (fun k =>
                  pass_events script_path timeout assume_yes
                    python_executable (w k) k)
               (seq (n + 1) (retries f - n))
             ++ match outcome f with
                | Ok _ => snd (epilogue (retries f) (installed_packages f))
                | Raise _ => []
                end)%list)).
  - intros n inst L.
    cbn [finish outcome retries trace installed_packages].
    rewrite Nat.sub_diag, epilogue_eq. split; [lia | reflexivity].
  - intros n inst inst' evs L B.
    cbn [after finish outcome retries trace installed_packages].
    replace (n + 1 - n) with 1 by lia. cbn [seq flat_map].
    rewrite (pass_events_any_list _ _ _ _ _ B), app_nil_r, epilogue_eq.
    split; [lia | reflexivity].
  - intros n inst e evs L B.
    cbn [finish outcome retries trace installed_packages fst snd].
    replace (n + 1 - n) with 1 by lia. cbn [seq flat_map].
    rewrite (pass_events_any_list _ _ _ _ _ B), !app_nil_r.
    split; [lia | reflexivity].
  - intros n inst inst' evs f L B [Le T].
    cbn [after outcome retries trace installed_packages].
    split; [lia|].
    replace (retries f - n) with (S (retries f - (n + 1))) by lia.
    cbn [seq flat_map].
    replace (S (n + 1)) with (n + 1 + 1) by lia.
    now rewrite (pass_events_any_list _ _ _ _ _ B), T, app_assoc.
Qed.

(** An execution that announces an aborted installation: the pass in
    which the counter stopped is the one whose installation failed, every
    pass before it installed a package, and nowhere in the trace do two
    prints follow each other. *)
Lemma loop_abort (fuel n : nat) (inst : list string) (f : final) :
  loop fuel n inst = Some f ->
  existsb (announces InstallFailed) (trace f) = true ->
  n < retries f
  /\ adjacent_prints (trace f) = false
  /\ starts_with_print (trace f) = false
  /\ (forall k, n < k < retries f ->
                continues script_path timeout assume_yes python_executable
                  (w k) k = true)
  /\ exists name message ievs,
       misses (w (retries f)) name
       /\ install_package (w (retries f)) name python_executable assume_yes
          = (Ok (false, message), ievs)
       /\ pass_events script_path timeout assume_yes python_executable
            (w (retries f)) (retries f)
          = (opening (retries f)
             ++ detected name :: ievs ++ abort_lines message)%list.
Proof.
  revert fuel n inst f.
  apply (while_loop_cases
    (fun n inst f =>
       existsb (announces InstallFailed) (trace f) = true ->
       n < retries f
       /\ adjacent_prints (trace f) = false
       /\ starts_with_print (trace f) = false
       /\ (forall k, n < k < retries f ->
                     continues script_path timeout assume_yes
                       python_executable (w k) k = true)
       /\ exists name message ievs,
            misses (w (retries f)) name
            /\ install_package (w (retries f)) name python_executable
                 assume_yes
               = (Ok (false, message), ievs)
            /\ pass_events script_path timeout assume_yes python_executable
                 (w (retries f)) (retries f)
               = (opening (retries f)
                  ++ detected name :: ievs ++ abort_lines message)%list)).
  - intros n inst L. cbn [finish trace].
    rewrite epilogue_announces. discriminate.
  - intros n inst inst' evs L B. cbn [after finish trace].
    apply pass_break in B as [_ [NoAbort _]].
    rewrite existsb_app, NoAbort, epilogue_announces. discriminate.
  - intros n inst e evs L B Ab.
    cbn [finish retries trace fst snd] in *.
    pose proof (pass_events_any_list _ _ _ _ _ B) as Ev.
    apply pass_raise_abort in B as [name [message [ievs [Mi [I ->]]]]];
      [|exact Ab].
    destruct (installer_prints_apart (w (n + 1)) name python_executable
                assume_yes) as [A S].
    rewrite I in A, S. cbn [snd] in A, S.
    destruct (installing_pass_prints_apart script_path python_executable
                (n + 1) name ievs (abort_lines message) A S
                eq_refl eq_refl) as [A' S'].
    split; [lia|]. split; [exact A'|]. split; [exact S'|].
    split; [intros k Hk; lia|].
    exists name, message, ievs. auto.
  - intros n inst inst' evs f L B IH.
    cbn [after retries trace].
    pose proof B as Bc.
    apply pass_continue in Bc as [Q [name [message [ievs [Mi [_ [I ->]]]]]]].
    rewrite existsb_app, Q. cbn [orb]. intros Ab.
    destruct (IH Ab) as [Lt [A [S [C Last]]]].
    destruct (installer_prints_apart (w (n + 1)) name python_executable
                assume_yes) as [Ai Si].
    rewrite I in Ai, Si. cbn [snd] in Ai, Si.
    destruct (installing_pass_prints_apart script_path python_executable
                (n + 1) name ievs [] Ai Si eq_refl eq_refl) as [A' S'].
    rewrite app_nil_r in A', S'.
    split; [lia|]. split; [now apply adjacent_prints_app|].
    split; [reflexivity|]. split; [|exact Last].
    intros k Hk. destruct (Nat.eq_dec k (n + 1)) as [-> | Ne].
    + apply continues_spec. eauto.
    + apply C. lia.
Qed.

(** C3, amended. Whenever the function returns, the last thing it prints
    is the summary of the full list of installed packages, and for the
    terminal reasons Success, TimeoutAssumedSuccess, UnrecognizedFailure and
    RetryLimitExceeded it does return. For InstallDeclined and
    InstallFailed the process exits with status 1 right after the two abort
    lines, and no summary report is produced: the trace is made of the
    passes that installed a package followed by the pass whose installation
    failed, which ends with the abort lines, and the summary block, for any
    list of packages, occurs nowhere in it. *)
Theorem summary_report_iff_function_returns :
  exists f,
    resolve = Some f
    /\ (outcome f = Ok tt ->
        exists pre, trace f = (pre ++ summary (installed_packages f))%list)
    /\ (forall t,
           In t [Success; TimeoutAssumedSuccess; UnrecognizedFailure;
                 RetryLimitExceeded] ->
           reached t (trace f) = true ->
           outcome f = Ok tt
           /\ exists pre,
                trace f = (pre ++ summary (installed_packages f))%list)
    /\ (forall t,
           In t [InstallDeclined; InstallFailed] ->
           reached t (trace f) = true ->
           outcome f = Raise (SystemExit 1)
           /\ (exists pre message,
                  trace f = (pre ++ abort_lines message)%list)
           /\ ~ (exists pre,
                    trace f = (pre ++ summary (installed_packages f))%list)
           /\ (forall pkgs pre post,
                  trace f <> (pre ++ summary pkgs ++ post)%list)
           /\ 1 <= retries f
           /\ (forall k,
                  1 <= k < retries f ->
                  continues script_path timeout assume_yes python_executable
                    (w k) k = true)
           /\ exists name message ievs,
                misses (w (retries f)) name
                /\ install_package (w (retries f)) name python_executable
                     assume_yes
                   = (Ok (false, message), ievs)
                /\ trace f
                   = (passes script_path timeout assume_yes python_executable
                        w (retries f - 1)
                      ++ opening (retries f)
                      ++ detected name :: ievs ++ abort_lines message)%list).
Proof.
  unfold resolve_dependencies.
  destruct (while_loop_total max_retries 0 [] ltac:(lia)) as [f W].
  exists f. split; [exact W|].
  destruct (loop_outcome _ _ _ _ W)
    as [[O [S NoAbort]] | [O [None Ab]]];
    (split; [intros; trivial; congruence|]); split.
  - auto.
  - intros t I R. exfalso. unfold reached in R.
    apply andb_true_iff in R as [R _].
    cbn [In] in I. destruct I as [<- | [<- | []]];
      change (existsb (announces InstallFailed) (trace f) = true) in R;
      congruence.
  - intros t I R. exfalso. unfold reached in R.
    apply andb_true_iff in R as [R _].
    cbn [In] in I. destruct I as [<- | [<- | [<- | [<- | []]]]];
      rewrite None in R; discriminate.
  - intros t I R. unfold reached in R. apply andb_true_iff in R as [R _].
    assert (A : existsb (announces InstallFailed) (trace f) = true)
      by (cbn [In] in I; destruct I as [<- | [<- | []]]; exact R).
    destruct (Ab A) as [pre [message T]].
    destruct (loop_abort _ _ _ _ W A)
      as [Lt [Adj [_ [C [name [message' [ievs [Mi [Ip Ev]]]]]]]]].
    destruct (loop_trace _ _ _ _ W) as [_ Tr].
    rewrite O, app_nil_r, Nat.sub_0_r in Tr. cbn [Nat.add] in Tr.
    fold (passes script_path timeout assume_yes python_executable w
            (retries f)) in Tr.
    split; [exact O|]. split; [eauto|]. split.
    { intros [pre' T']. rewrite T in T'.
      now apply abort_is_not_summary in T'. }
    split.
    { intros pkgs pre' post E. rewrite E, summary_has_adjacent_prints in Adj.
      discriminate. }
    split; [lia|]. split; [intros k Hk; apply C; lia|].
    exists name, message', ievs. split; [exact Mi|]. split; [exact Ip|].
    destruct (retries f) as [|m] eqn:Rf; [lia|].
    rewrite passes_succ, Ev in Tr. cbn [Nat.sub]. now rewrite Nat.sub_0_r.
Qed.

End LoopProofs.

(** ** The empty name *)

(** C5, amended. For every text that contains neither of the two empty
    quoted forms, a name returned by the parser is not empty. When the
    parser does return the empty string, the loop handles it as it handles
    [None]: the pass logs the unrecognized failure and breaks, and the
    installer is not called. *)
Theorem parser_name_nonempty_unless_empty_quotes :
  (forall text name,
      parse_missing_module text = Some name ->
      contains "No module named ''" text = false ->
      contains ("No module named " ++ DQ ++ DQ) text = false ->
      name <> EmptyString)
  /\ (forall script_path timeout assume_yes python_executable a k inst p,
         target a = Within (Exited p) ->
         returncode p <> 0%Z ->
         parse_missing_module (stderr p) = Some EmptyString ->
         loop_body script_path timeout assume_yes python_executable a k inst
         = (Ok (Break, inst),
            unrecognized_pass script_path python_executable k p)
         /\ existsb installer_sign
              (unrecognized_pass script_path python_executable k p) = false).
Proof.
  split; [exact nonempty_unless_empty_quotes|].
  intros script_path timeout assume_yes python_executable a k inst p T Z P.
  split; [|reflexivity].
  apply pass_loop_body, pass_unrecognized; auto.
  intros E. rewrite E, parse_empty in P. discriminate.
Qed.

Lemma parser_name_nonempty_unless_empty_quotes_witness :
  parse_missing_module "No module named 'requests'" = Some "requests"
  /\ "requests" <> EmptyString.
Proof.
  split; [reflexivity|].
  apply (proj1 parser_name_nonempty_unless_empty_quotes
           "No module named 'requests'" "requests"); reflexivity.
Defined.

(** ** The theorems at the sample worlds *)

Lemma retries_bounded_by_ceiling_witness :
  (forall k, 1 <= k <= 20 ->
             continues "target.py" 15 true "python"
               (Sample.always_one_more k) k = true)
  /\ exists f,
       resolve_dependencies "target.py" 15 true "python"
         Sample.always_one_more = Some f
       /\ outcome f = Ok tt
       /\ retries f = 20
       /\ reached RetryLimitExceeded (trace f) = true
       /\ count is_target_run (trace f) = 20.
Proof.
  assert (C : forall k, 1 <= k <= 20 ->
                        continues "target.py" 15 true "python"
                          (Sample.always_one_more k) k = true).
  { intros k [Lo Hi].
    do 21 (destruct k as [|k]; [first [lia | vm_compute; reflexivity]|]).
    lia. }
  split; [exact C|].
  destruct (retries_bounded_by_ceiling "target.py" 15 true "python"
              Sample.always_one_more) as [f [W [_ [_ [_ H]]]]].
  exists f. split; [exact W|]. exact (H C).
Defined.

(** C2, as stated, fails: in a world where every attempt reports a missing
    module and pip always fails, the execution ends in attempt 1 with the
    aborted installation announced and exit status 1; the retry limit is
    not reached and attempt 20 is never run. *)
Lemma never_installable_ends_in_first_attempt :
  (forall k, 1 <= k ->
             exists name,
               misses (Sample.never_installable k) name
               /\ install_fails (Sample.never_installable k) name "python" true)
  /\ exists f,
       resolve_dependencies "target.py" 15 true "python"
         Sample.never_installable = Some f
       /\ outcome f = Raise (SystemExit 1)
       /\ retries f = 1
       /\ reached InstallFailed (trace f) = true
       /\ reached RetryLimitExceeded (trace f) = false.
Proof.
  split.
  - intros k _. exists "nosuchpkg". split.
    + eexists. repeat split; [discriminate | discriminate].
    + eexists. vm_compute. reflexivity.
  - eexists. split; [vm_compute; reflexivity|]. repeat split.
Qed.

Lemma install_failure_ends_first_attempt_witness :
  (exists f,
      resolve_dependencies "target.py" 15 true "python"
        Sample.never_installable = Some f
      /\ outcome f = Raise (SystemExit 1)
      /\ retries f = 1
      /\ count is_target_run (trace f) = 1
      /\ reached RetryLimitExceeded (trace f) = false
      /\ (reached InstallFailed (trace f)
          || reached InstallDeclined (trace f))
         = true
      /\ (true = true -> reached InstallFailed (trace f) = true)
      /\ reached InstallDeclined (trace f)
         = declines (Sample.never_installable 1) true
      /\ reached InstallFailed (trace f)
         = negb (declines (Sample.never_installable 1) true)
      /\ existsb is_pip_run (trace f)
         = negb (declines (Sample.never_installable 1) true))
  /\ declines (Sample.never_installable 1) true = false
  /\ (exists f,
         resolve_dependencies "target.py" 15 false "python"
           Sample.operator_says_no = Some f
         /\ outcome f = Raise (SystemExit 1)
         /\ retries f = 1
         /\ count is_target_run (trace f) = 1
         /\ reached RetryLimitExceeded (trace f) = false
         /\ (reached InstallFailed (trace f)
             || reached InstallDeclined (trace f))
            = true
         /\ (false = true -> reached InstallFailed (trace f) = true)
         /\ reached InstallDeclined (trace f)
            = declines (Sample.operator_says_no 1) false
         /\ reached InstallFailed (trace f)
            = negb (declines (Sample.operator_says_no 1) false)
         /\ existsb is_pip_run (trace f)
            = negb (declines (Sample.operator_says_no 1) false))
  /\ declines (Sample.operator_says_no 1) false = true.
Proof.
  split; [|split; [reflexivity|split; [|reflexivity]]].
  - apply (install_failure_ends_first_attempt "target.py" 15 true "python"
             Sample.never_installable).
    intros k _. exists "nosuchpkg". split.
    + eexists. repeat split; [discriminate | discriminate].
    + eexists. vm_compute. reflexivity.
  - apply (install_failure_ends_first_attempt "target.py" 15 false "python"
             Sample.operator_says_no).
    intros k _. exists "requests". split.
    + eexists. repeat split; [discriminate | discriminate].
    + eexists. vm_compute. reflexivity.
Defined.

(** C3, as stated, fails: when the operator declines the installation the
    process exits with status 1 and the summary is never printed. *)
Lemma declined_installation_skips_summary :
  exists f,
    resolve_dependencies "target.py" 15 false "python"
      Sample.operator_says_no = Some f
    /\ reached InstallDeclined (trace f) = true
    /\ outcome f = Raise (SystemExit 1)
    /\ existsb is_summary_header (trace f) = false
    /\ ~ exists pre, trace f = (pre ++ summary (installed_packages f))%list.
Proof.
  eexists. split; [vm_compute; reflexivity|].
  repeat split.
  intros [pre E]. cbn [trace installed_packages] in E.
  destruct (summary_ends_with_rule []) as [body S]. rewrite S in E.
  change [Log INFO "--- Attempt 1: Running 'target.py' using 'python' ---";
          Run ["python"; "target.py"];
          Log INFO "Detected missing module: 'requests'";
          Input "Missing package 'requests'. Install with pip? [Y/n] ";
          Log WARNING "Skipping installation of 'requests'.";
          Log ERROR "Error: User declined to install requests.";
          Log CRITICAL "Aborting due to installation failure."]
    with ([Log INFO "--- Attempt 1: Running 'target.py' using 'python' ---";
           Run ["python"; "target.py"];
           Log INFO "Detected missing module: 'requests'";
           Input "Missing package 'requests'. Install with pip? [Y/n] ";
           Log WARNING "Skipping installation of 'requests'.";
           Log ERROR "Error: User declined to install requests."]
          ++ [Log CRITICAL "Aborting due to installation failure."])%list in E.
  rewrite app_assoc in E. apply app_inj_tail in E as [_ E]. discriminate.
Qed.

Lemma summary_report_iff_function_returns_witness :
  (exists f,
      resolve_dependencies "target.py" 15 false "python" Sample.syntax_error
      = Some f
      /\ reached UnrecognizedFailure (trace f) = true
      /\ outcome f = Ok tt
      /\ exists pre, trace f = (pre ++ summary (installed_packages f))%list)
  /\ (exists f,
         resolve_dependencies "target.py" 15 false "python"
           Sample.operator_says_no = Some f
         /\ reached InstallDeclined (trace f) = true
         /\ outcome f = Raise (SystemExit 1)
         /\ retries f = 1
         /\ forall pkgs pre post,
              trace f <> (pre ++ summary pkgs ++ post)%list).
Proof.
  split.
  - destruct (summary_report_iff_function_returns "target.py" 15 false
                "python" Sample.syntax_error) as [f [W [_ [Ret _]]]].
    exists f. split; [exact W|].
    assert (R : reached UnrecognizedFailure (trace f) = true).
    { vm_compute in W. injection W as <-. reflexivity. }
    split; [exact R|].
    apply (Ret UnrecognizedFailure); [cbn; auto | exact R].
  - destruct (summary_report_iff_function_returns "target.py" 15 false
                "python" Sample.operator_says_no) as [f [W [_ [_ Exit]]]].
    exists f. split; [exact W|].
    assert (R : reached InstallDeclined (trace f) = true
                /\ retries f = 1).
    { vm_compute in W. injection W as <-. split; reflexivity. }
    destruct R as [R One]. split; [exact R|].
    destruct (Exit InstallDeclined) as [O [_ [_ [No _]]]];
      [cbn; auto | exact R |].
    auto.
Defined.

Lemma timeout_is_assumed_success_witness :
  exists f,
    resolve_dependencies "target.py" 15 false "python" Sample.hangs = Some f
    /\ target (Sample.hangs 1) = Expired
    /\ retries f = 1 /\ outcome f = Ok tt
    /\ reached TimeoutAssumedSuccess (trace f) = true
    /\ reached UnrecognizedFailure (trace f) = false.
Proof.
  eexists. split; [vm_compute; reflexivity|]. split; [reflexivity|].
  apply (proj2 (timeout_is_assumed_success "target.py" 15 false "python"
                  Sample.hangs) _ 1).
  - vm_compute. reflexivity.
  - cbn [retries]. lia.
  - reflexivity.
Defined.

Lemma no_match_is_unrecognized_failure_witness :
  exists f,
    resolve_dependencies "target.py" 15 false "python" Sample.syntax_error
    = Some f
    /\ parse_missing_module (stderr Sample.syntax_error_run) = None
    /\ retries f = 1 /\ outcome f = Ok tt
    /\ reached UnrecognizedFailure (trace f) = true
    /\ In (Print (NL ++ "--- STDOUT ---" ++ NL
                  ++ stdout Sample.syntax_error_run)) (trace f)
    /\ In (Print (NL ++ "--- STDERR ---" ++ NL
                  ++ stderr Sample.syntax_error_run)) (trace f).
Proof.
  eexists. split; [vm_compute; reflexivity|]. split; [reflexivity|].
  apply (proj2 (no_match_is_unrecognized_failure "target.py" 15 false "python"
                  Sample.syntax_error) _ 1 Sample.syntax_error_run).
  - vm_compute. reflexivity.
  - cbn [retries]. lia.
  - reflexivity.
  - discriminate.
  - discriminate.
  - reflexivity.
Defined.

Lemma silent_crash_is_success_witness :
  exists f,
    resolve_dependencies "target.py" 15 false "python" Sample.silent_crash
    = Some f
    /\ target (Sample.silent_crash 1) = Within (Exited Sample.silent_crash_run)
    /\ retries f = 1 /\ outcome f = Ok tt
    /\ reached Success (trace f) = true.
Proof.
  eexists. split; [vm_compute; reflexivity|]. split; [reflexivity|].
  apply (proj1 (proj2 (silent_crash_is_success "target.py" 15 false "python"
                         Sample.silent_crash))
           _ 1 Sample.silent_crash_run).
  - vm_compute. reflexivity.
  - cbn [retries]. lia.
  - reflexivity.
  - discriminate.
  - reflexivity.
Defined.

(** The retry-limit line depends on the counter alone: a run that succeeds
    in the 20th pass is followed by it as well. *)
Example success_in_last_pass_logs_retry_limit :
  exists f,
    resolve_dependencies "target.py" 15 true "python"
      Sample.clean_on_twentieth = Some f
    /\ outcome f = Ok tt
    /\ retries f = 20
    /\ List.length (installed_packages f) = 19
    /\ reached Success (trace f) = true
    /\ reached RetryLimitExceeded (trace f) = true.
Proof. eexists. split; [vm_compute; reflexivity|]. repeat split. Qed.

(* ================================================================== *)
(** * Further properties *)
(* ================================================================== *)

(** ** parse_missing_module *)

(** A name the parser returns stands in the text, right after the phrase
    [No module named ] and its opening quote, if any: the parser never
    invents a name, and a text without the phrase is never recognized. *)
Theorem parsed_name_follows_the_phrase (text name : string) :
  parse_missing_module text = Some name ->
  (exists quote,
      In quote ["'"; DQ; EmptyString]
      /\ occurs_in ("No module named " ++ quote ++ name) text)
  /\ occurs_in name text
  /\ contains "No module named " text = true.
Proof.
  intros P.
  apply first_found_some in P as [earlier [p [later [E [_ Cap]]]]].
  assert (I : In p patterns) by (rewrite E; apply in_elt).
  destruct Cap as [pre [tail [-> [[_ [_ [rest ->]]] _]]]].
  assert (Q : exists quote lead,
             In quote ["'"; DQ; EmptyString]
             /\ Re.before p = lead ++ "No module named " ++ quote).
  { simpl in I. destruct I as [<- | [<- | [<- | []]]].
    - exists "'", EmptyString. simpl. auto.
    - exists DQ, EmptyString. simpl. auto.
    - exists EmptyString, "ImportError: ". simpl. auto. }
  destruct Q as [quote [lead [Iq ->]]].
  split; [|split].
  - exists quote. split; [exact Iq|].
    exists (pre ++ lead), (Re.after p ++ rest).
    now rewrite !append_assoc.
  - exists (pre ++ lead ++ "No module named " ++ quote), (Re.after p ++ rest).
    now rewrite !append_assoc.
  - apply contains_spec.
    exists (pre ++ lead), (quote ++ name ++ Re.after p ++ rest).
    now rewrite !append_assoc.
Qed.

Lemma parsed_name_follows_the_phrase_witness :
  occurs_in "numpy" "ModuleNotFoundError: No module named 'numpy'"
  /\ contains "No module named "
       "ModuleNotFoundError: No module named 'numpy'" = true.
Proof.
  apply (parsed_name_follows_the_phrase
           "ModuleNotFoundError: No module named 'numpy'" "numpy").
  reflexivity.
Defined.

(** The single-quoted group stops at the first quote. *)
Lemma greedy_star_until_quote (q : ascii) (name post : string) :
  all_chars (not_char q) name = true ->
  Re.greedy_star (not_char q) (String q EmptyString)
    (name ++ String q post)
  = Some name.
Proof.
  intros A. induction name as [|c name IH]; cbn [append Re.greedy_star].
  - unfold not_char at 1. rewrite Ascii.eqb_refl.
    cbn [negb skip_literal]. now rewrite Ascii.eqb_refl.
  - cbn [all_chars] in A. apply andb_true_iff in A as [Cc A].
    now rewrite Cc, (IH A).
Qed.

(** The search skips a prefix in which the pattern matches nowhere. *)
Lemma search_past_prefix (p : Re.pattern) (pre rest : string) :
  (forall s1 s2, pre = s1 ++ s2 -> s2 <> EmptyString ->
                 Re.match_here p (s2 ++ rest) = None) ->
  Re.search p (pre ++ rest) = Re.search p rest.
Proof.
  induction pre as [|c pre IH]; intros H; [reflexivity|].
  pose proof (H EmptyString (String c pre) eq_refl ltac:(discriminate)) as M.
  cbn [append] in M. cbn [append Re.search]. rewrite M.
  apply IH. intros s1 s2 -> N. now apply (H (String c s1) s2).
Qed.

Lemma search_at_head (p : Re.pattern) (s g : string) :
  Re.match_here p s = Some g -> Re.search p s = Some g.
Proof. intros H. destruct s; cbn [Re.search]; now rewrite H. Qed.

Lemma contains_suffix (needle s1 s2 : string) :
  contains needle (s1 ++ s2) = false -> starts_with needle s2 = false.
Proof.
  intros C. destruct (starts_with needle s2) eqn:S; [|reflexivity].
  apply starts_with_spec in S as [r ->].
  assert (T : contains needle (s1 ++ needle ++ r) = true)
    by (apply contains_spec; now exists s1, r).
  congruence.
Qed.

(** Round trip with the message Python 3 prints: whatever precedes it (as
    long as it does not hold [No ] with its space) and whatever follows, the
    parser gives back the name put between the single quotes, for every
    name without a single quote. *)
Theorem parse_recovers_single_quoted_name (pre name post : string) :
  contains "No " pre = false ->
  all_chars (not_char "'"%char) name = true ->
  parse_missing_module (pre ++ "No module named '" ++ name ++ "'" ++ post)
  = Some name.
Proof.
  intros Pre A. unfold parse_missing_module, patterns. cbn [first_found].
  rewrite search_past_prefix.
  - rewrite (search_at_head _ _ name); [reflexivity|].
    unfold Re.match_here. cbn [Re.before].
    assert (S : skip_literal "No module named '"
                  ("No module named '" ++ name ++ "'" ++ post)
                = Some (name ++ "'" ++ post))
      by now apply skip_literal_spec.
    rewrite S. unfold Re.greedy_group. cbn [Re.one_or_more Re.cls Re.after].
    now apply greedy_star_until_quote.
  - intros s1 s2 -> N. apply contains_suffix in Pre.
    unfold Re.match_here. cbn [Re.before].
    destruct s2 as [|c [|d [|e s]]]; [now contradiction N | | | ];
      cbn [append skip_literal].
    + destruct (Ascii.eqb "N" c); reflexivity.
    + destruct (Ascii.eqb "N" c); [|reflexivity].
      destruct (Ascii.eqb "o" d); reflexivity.
    + unfold starts_with in Pre. cbn [skip_literal] in Pre.
      destruct (Ascii.eqb "N" c); [|reflexivity].
      destruct (Ascii.eqb "o" d); [|reflexivity].
      destruct (Ascii.eqb " " e); [discriminate | reflexivity].
Qed.

Lemma parse_recovers_single_quoted_name_witness :
  parse_missing_module
    (("Traceback (most recent call last):" ++ NL ++ "ModuleNotFoundError: ")
     ++ "No module named '" ++ "yaml" ++ "'" ++ NL)
  = Some "yaml".
Proof.
  apply (parse_recovers_single_quoted_name
           ("Traceback (most recent call last):" ++ NL
            ++ "ModuleNotFoundError: ")
           "yaml" NL); reflexivity.
Defined.

(** ** install_package *)

(** The operator is asked at most once, and never under auto-confirm or for
    an empty package name. *)
Theorem installer_prompts_at_most_once (a : attempt_world)
    (package_name python_executable : string) (assume_yes : bool) :
  count is_input
    (snd (install_package a package_name python_executable assume_yes))
  = if assume_yes || negb (truthy package_name) then 0 else 1.
Proof.
  installer_cases a package_name assume_yes; try reflexivity.
  now rewrite orb_true_r.
Qed.

(** The only process [install_package] ever spawns is
    [python_executable -m pip install package_name], and it spawns it at
    most once. *)
Theorem installer_spawns_only_pip (a : attempt_world)
    (package_name python_executable : string) (assume_yes : bool) :
  let evs :=
    snd (install_package a package_name python_executable assume_yes) in
  (forall argv,
      In (Run argv) evs ->
      argv = [python_executable; "-m"; "pip"; "install"; package_name])
  /\ count is_pip_run evs <= 1
  /\ count is_target_run evs = 0.
Proof.
  cbv zeta.
  installer_cases a package_name assume_yes;
    (split; [intros argv I; cbn [In] in I;
             repeat (destruct I as [I | I]; [try discriminate I|]);
             try contradiction; now injection I as <-
            | split; cbn; lia]).
Qed.

(** An interrupt at the prompt ends the process with status 1 at once: the
    cancellation is logged and pip is not spawned. It is the only way
    [install_package] exits the process. *)
Theorem operator_interrupt_exits_process (a : attempt_world)
    (package_name python_executable : string) (assume_yes : bool) :
  let r := fst (install_package a package_name python_executable assume_yes) in
  let evs :=
    snd (install_package a package_name python_executable assume_yes) in
  (package_name <> EmptyString -> assume_yes = false ->
   operator a = CtrlC ->
   r = Raise (SystemExit 1)
   /\ evs = [Input ("Missing package '" ++ package_name
                    ++ "'. Install with pip? [Y/n] ");
             Log INFO (NL ++ "Installation cancelled by user.")])
  /\ (forall code,
         r = Raise (SystemExit code) ->
         code = 1%Z /\ package_name <> EmptyString /\ assume_yes = false
         /\ operator a = CtrlC).
Proof.
  cbv zeta. split.
  - intros N -> Op. unfold install_package, confirm.
    destruct package_name as [|c pkg]; [now contradiction N|].
    cbn [truthy negb]. run_m. rewrite Op. run_m. split; reflexivity.
  - intros code.
    installer_cases a package_name assume_yes; try discriminate.
    intros [= <-]. repeat split; discriminate.
Qed.

Lemma operator_interrupt_exits_process_witness :
  fst (install_package
         {| target := Expired; operator := CtrlC; pip := Sample.pip_ok |}
         "requests" "python" false)
  = Raise (SystemExit 1).
Proof.
  apply (proj1 (operator_interrupt_exits_process
                  {| target := Expired; operator := CtrlC;
                     pip := Sample.pip_ok |}
                  "requests" "python" false));
    [discriminate | reflexivity | reflexivity].
Defined.

(** Around pip only [CalledProcessError] and [FileNotFoundError] are
    handled: when the operator has not refused and spawning pip fails with
    another error, that error leaves [install_package] as it is, after the
    attempt has been logged. *)
Theorem installer_passes_on_other_spawn_errors (a : attempt_world)
    (package_name python_executable msg : string) (assume_yes : bool) :
  package_name <> EmptyString ->
  pip a = SpawnError msg ->
  assume_yes = true
  \/ (exists line, operator a = Typed line /\ consents line = true) ->
  install_package a package_name python_executable assume_yes
  = (Raise (OtherException msg),
     ((if assume_yes then []
       else [Input ("Missing package '" ++ package_name
                    ++ "'. Install with pip? [Y/n] ")])
      ++ [Log INFO ("Attempting to install '" ++ package_name
                    ++ "' with pip...");
          Run [python_executable; "-m"; "pip"; "install"; package_name]])%list).
Proof.
  intros N P Ask. unfold install_package, confirm.
  destruct package_name as [|c pkg]; [now contradiction N|].
  cbn [truthy negb]. run_m.
  destruct assume_yes; cbn [negb]; run_m.
  - rewrite P. run_m. reflexivity.
  - destruct Ask as [[=] | [line [Op C]]].
    rewrite Op. run_m. unfold consents in C. rewrite C. run_m.
    rewrite P. run_m. reflexivity.
Qed.

Lemma installer_passes_on_other_spawn_errors_witness :
  install_package
    {| target := Expired; operator := Typed "yes";
       pip := SpawnError "Permission denied" |}
    "requests" "python" false
  = (Raise (OtherException "Permission denied"),
     [Input "Missing package 'requests'. Install with pip? [Y/n] ";
      Log INFO "Attempting to install 'requests' with pip...";
      Run ["python"; "-m"; "pip"; "install"; "requests"]]).
Proof.
  apply (installer_passes_on_other_spawn_errors
           {| target := Expired; operator := Typed "yes";
              pip := SpawnError "Permission denied" |}
           "requests" "python" "Permission denied" false).
  - discriminate.
  - reflexivity.
  - right. exists "yes". split; reflexivity.
Defined.

(** When the interpreter that should run pip is not there, the installer
    does not raise: it reports [installed=false] with a diagnostic that
    names the interpreter. *)
Theorem installer_reports_missing_interpreter (a : attempt_world)
    (package_name python_executable : string) (assume_yes : bool) :
  pip a = NoSuchFile ->
  existsb is_pip_run
    (snd (install_package a package_name python_executable assume_yes)) = true ->
  exists message,
    fst (install_package a package_name python_executable assume_yes)
    = Ok (false, message)
    /\ occurs_in python_executable message.
Proof.
  intros Pip.
  assert (Msg : occurs_in python_executable
                  ("Error: '" ++ python_executable
                   ++ "' command not found. Is Python installed and in your PATH?")).
  { exists "Error: '",
           "' command not found. Is Python installed and in your PATH?".
    reflexivity. }
  unfold install_package, confirm.
  destruct package_name as [|c pkg]; cbn [truthy negb]; run_m;
    [discriminate|].
  destruct assume_yes; cbn [negb]; run_m.
  - rewrite Pip. run_m. eauto.
  - destruct (operator a) as [line | | ]; run_m; try discriminate.
    destruct (mem (strip (lower line)) [EmptyString; "y"; "yes"]); run_m;
      [|discriminate].
    rewrite Pip. run_m. eauto.
Qed.

Lemma installer_reports_missing_interpreter_witness :
  exists message,
    fst (install_package
           {| target := Expired; operator := CtrlC; pip := NoSuchFile |}
           "requests" "no-such-python" true)
    = Ok (false, message)
    /\ occurs_in "no-such-python" message.
Proof.
  apply (installer_reports_missing_interpreter
           {| target := Expired; operator := CtrlC; pip := NoSuchFile |}
           "requests" "no-such-python" true); reflexivity.
Defined.

(** The diagnostic is empty exactly when the package was installed: every
    failure carries a message. *)
Theorem installer_diagnostic_iff_failure (a : attempt_world)
    (package_name python_executable : string) (assume_yes installed : bool)
    (message : string) :
  fst (install_package a package_name python_executable assume_yes)
  = Ok (installed, message) ->
  (installed = true <-> message = EmptyString).
Proof.
  installer_cases a package_name assume_yes; try discriminate;
    intros [= <- <-]; split; (reflexivity || discriminate).
Qed.

Lemma installer_diagnostic_iff_failure_witness :
  false = true <-> "No package name provided." = EmptyString.
Proof.
  apply (installer_diagnostic_iff_failure
           (Sample.never_installable 1) EmptyString "python" true).
  reflexivity.
Defined.

(** ** resolve_dependencies *)

Lemma installer_accounts (a : attempt_world) (pkg py : string) (yes : bool)
    (r : result (bool * string)) (ievs : list event) :
  install_package a pkg py yes = (r, ievs) ->
  filter is_installed_line ievs
  = match r with
    | Ok (true, _) => [installed_line pkg]
    | _ => []
    end
  /\ count is_pip_run ievs
     = match r with
       | Ok (true, _) => 1
       | _ => count is_pip_run ievs
       end
  /\ count is_pip_run ievs <= 1.
Proof.
  installer_cases a pkg yes; intros [= <- <-]; repeat split; cbn; lia.
Qed.

Lemma installer_runs_under (a : attempt_world) (pkg py : string) (yes : bool) :
  forallb (runs_under py) (snd (install_package a pkg py yes)) = true.
Proof.
  installer_cases a pkg yes; cbn [snd forallb runs_under andb];
    rewrite ?String.eqb_refl; reflexivity.
Qed.

Lemma installer_no_input_when_unprompted (a : attempt_world) (pkg py : string) :
  existsb is_input (snd (install_package a pkg py true)) = false.
Proof.
  unfold install_package, confirm. destruct pkg as [|c pkg]; [reflexivity|].
  cbn [truthy negb]. run_m. pip_cases a; reflexivity.
Qed.

Lemma summary_lines_forall (Q : event -> bool) (pkgs : list string) :
  (forall m, Q (Print m) = true) -> forallb Q (summary pkgs) = true.
Proof.
  intros H. unfold summary. cbn [forallb]. rewrite H, forallb_app.
  cbn [forallb]. rewrite H, andb_true_r. cbn [andb].
  destruct pkgs as [|x pkgs]; cbn [forallb]; rewrite H; [reflexivity|].
  cbn [andb]. apply forallb_forall. intros e I.
  apply in_map_iff in I as [y [<- _]]. apply H.
Qed.

Lemma epilogue_forall (Q : event -> bool) (n : nat) (inst : list string) :
  (forall m, Q (Print m) = true) ->
  (forall l m, Q (Log l m) = true) ->
  forallb Q (snd (epilogue n inst)) = true.
Proof.
  intros HP HL. rewrite epilogue_eq. cbn [snd].
  rewrite forallb_app, (summary_lines_forall Q inst HP), andb_true_r.
  destruct (max_retries <=? n)%nat; cbn [forallb]; rewrite ?HL; reflexivity.
Qed.

Lemma forallb_negb_existsb {A} (f : A -> bool) (l : list A) :
  forallb (fun x => negb (f x)) l = true <-> existsb f l = false.
Proof.
  induction l as [|x l IH]; cbn; [tauto|].
  rewrite andb_true_iff, orb_false_iff, negb_true_iff, IH. tauto.
Qed.

Lemma forallb_negb_count {A} (f : A -> bool) (l : list A) :
  forallb (fun x => negb (f x)) l = true -> filter f l = [].
Proof.
  induction l as [|x l IH]; cbn; [reflexivity|].
  intros H. apply andb_true_iff in H as [N H]. apply negb_true_iff in N.
  rewrite N. auto.
Qed.

Section MoreLoopProofs.

Variable script_path : string.
Variable timeout : Z.
Variable assume_yes : bool.
Variable python_executable : string.
Variable w : world.

Local Set Warnings "-notation-for-abbreviation".

Notation pass := (pass script_path timeout assume_yes python_executable).
Notation body :=
  (loop_body script_path timeout assume_yes python_executable).
Notation loop :=
  (while_loop script_path timeout assume_yes python_executable w).
Notation resolve :=
  (resolve_dependencies script_path timeout assume_yes python_executable w).
Notation install a name :=
  (install_package a name python_executable assume_yes).

Lemma misses_detected (a : attempt_world) (name : string) :
  misses a name -> detected_name a = name.
Proof.
  intros [p [T [_ [P _]]]]. unfold detected_name. now rewrite T, P.
Qed.

(** What one pass adds to the list, the installed lines it logs and the
    pip runs it makes. *)
Lemma pass_accounts (a : attempt_world) (k : nat) (inst : list string)
    (r : result (control * list string)) (evs : list event) :
  pass a k inst r evs ->
  exists new,
    filter is_installed_line evs = map installed_line new
    /\ match r with
       | Ok (Continue, inst') =>
           inst' = (inst ++ new)%list /\ new = [detected_name a]
           /\ count is_pip_run evs = 1
       | Ok (Break, inst') => inst' = inst /\ new = []
       | Raise _ => new = []
       end
    /\ count is_pip_run evs <= 1.
Proof.
  intros [T | p T S | p T Z E P | name message ievs Mi I
          | name message ievs Mi I | name ievs Mi I | name msg ievs Mi I
          | T | msg T];
    try (apply misses_detected in Mi; subst name);
    try (apply installer_accounts in I as [IL [IP IB]]);
    unfold timeout_pass, success_pass, unrecognized_pass, opening, banner,
      detected, abort_lines, unexpected, count in *;
    try destruct (truthy (stderr p));
    cbn; rewrite ?filter_app, ?length_app, ?IL; cbn.
  all: try (exists []; repeat split; cbn; try reflexivity; lia).
  exists [detected_name a]. cbn [map List.length].
  repeat split; cbn [List.length] in *; lia.
Qed.

Lemma pass_runs_under (a : attempt_world) (k : nat) (inst : list string)
    (r : result (control * list string)) (evs : list event) :
  pass a k inst r evs -> forallb (runs_under python_executable) evs = true.
Proof.
  intros [T | p T S | p T Z E P | name message ievs Mi I
          | name message ievs Mi I | name ievs Mi I | name msg ievs Mi I
          | T | msg T];
    try (pose proof (installer_runs_under a name python_executable assume_yes)
           as R; rewrite I in R; cbn [snd] in R);
    unfold timeout_pass, success_pass, unrecognized_pass;
    unfold opening, banner; cbn [app forallb runs_under];
    rewrite ?forallb_app, ?R; try destruct (truthy (stderr p));
    cbn [forallb runs_under app andb];
    rewrite ?String.eqb_refl; reflexivity.
Qed.


Lemma pass_no_input (a : attempt_world) (k : nat) (inst : list string)
    (r : result (control * list string)) (evs : list event) :
  assume_yes = true -> pass a k inst r evs -> existsb is_input evs = false.
Proof.
  intros Y.
  intros [T | p T S | p T Z E P | name message ievs Mi I
          | name message ievs Mi I | name ievs Mi I | name msg ievs Mi I
          | T | msg T];
    try (pose proof (installer_no_input_when_unprompted a name
                       python_executable) as R;
         rewrite <- Y, I in R; cbn [snd] in R);
    unfold timeout_pass, success_pass, unrecognized_pass, opening, banner;
    cbn [app existsb is_input orb];
    rewrite ?existsb_app, ?R; try destruct (truthy (stderr p)); reflexivity.
Qed.

Lemma epilogue_no_installed_line (n : nat) (inst : list string) :
  filter is_installed_line (snd (epilogue n inst)) = [].
Proof.
  rewrite epilogue_eq. cbn [snd]. rewrite filter_app.
  rewrite (forallb_negb_count is_installed_line (summary inst))
    by (apply summary_lines_forall; reflexivity).
  destruct (max_retries <=? n)%nat; reflexivity.
Qed.

Lemma epilogue_no_pip_run (n : nat) (inst : list string) :
  count is_pip_run (snd (epilogue n inst)) = 0.
Proof.
  unfold count. rewrite forallb_negb_count; [reflexivity|].
  apply epilogue_forall; reflexivity.
Qed.

(** The books of the loop: what it appends to the list are the modules
    detected in its successive passes, each with its installed line and its
    run of pip. *)
Lemma loop_accounts (fuel n : nat) (inst : list string) (f : final) :
  loop fuel n inst = Some f ->
  exists new,
    installed_packages f = (inst ++ new)%list
    /\ filter is_installed_line (trace f) = map installed_line new
    /\ new = map (fun k => detected_name (w k)) (seq (n + 1) (List.length new))
    /\ List.length new <= count is_pip_run (trace f)
    /\ count is_pip_run (trace f) + n <= retries f
    /\ ((List.length new + n = retries f /\ max_retries <= retries f)
        \/ List.length new + n + 1 = retries f).
Proof.
  revert fuel n inst f.
  apply (while_loop_cases script_path timeout assume_yes python_executable w
    (fun n inst f =>
       exists new,
         installed_packages f = (inst ++ new)%list
         /\ filter is_installed_line (trace f) = map installed_line new
         /\ new = map (fun k => detected_name (w k))
                    (seq (n + 1) (List.length new))
         /\ List.length new <= count is_pip_run (trace f)
         /\ count is_pip_run (trace f) + n <= retries f
         /\ ((List.length new + n = retries f /\ max_retries <= retries f)
             \/ List.length new + n + 1 = retries f))).
  - intros n inst L. exists [].
    cbn [finish installed_packages trace retries].
    rewrite epilogue_no_installed_line, epilogue_no_pip_run, app_nil_r.
    cbn [List.length map seq]. repeat split; auto; lia.
  - intros n inst inst' evs L B. exists [].
    cbn [after finish installed_packages trace retries].
    apply pass_accounts in B as [new [Fl [[-> ->] Pb]]].
    unfold count in *.
    rewrite !filter_app, length_app, Fl, epilogue_no_installed_line.
    fold (count is_pip_run (snd (epilogue (n + 1) inst))).
    rewrite epilogue_no_pip_run, app_nil_r.
    cbn [List.length map seq app]. repeat split; auto; lia.
  - intros n inst e evs L B. exists [].
    cbn [finish installed_packages trace retries snd].
    apply pass_accounts in B as [new [Fl [-> Pb]]].
    unfold count in *. rewrite Fl, app_nil_r.
    cbn [List.length map seq]. repeat split; auto; lia.
  - intros n inst inst' evs f L B [new' [Ei [Fl [Nm [Lp [Pr D]]]]]].
    apply pass_accounts in B as [new [Fe [[-> [-> P1]] Pb]]].
    exists (detected_name (w (n + 1)) :: new').
    cbn [after installed_packages trace retries].
    unfold count in *.
    rewrite !filter_app, length_app, Fe, Fl, P1, Ei, <- app_assoc.
    cbn [List.length map seq app].
    replace (S (n + 1)) with (n + 1 + 1) by lia. rewrite <- Nm.
    repeat split; auto; lia.
Qed.

(** The list of installed packages holds, in order, the modules the parser
    detected in attempts 1, 2, ...: one per attempt that ended in a
    successful installation. It is one shorter than the number of attempts,
    unless all 20 attempts installed something. *)
Theorem installed_packages_are_detected_modules :
  exists f,
    resolve = Some f
    /\ installed_packages f
       = map (fun k => detected_name (w k))
           (seq 1 (List.length (installed_packages f)))
    /\ ((List.length (installed_packages f) = 20 /\ retries f = 20)
        \/ List.length (installed_packages f) + 1 = retries f).
Proof.
  unfold resolve_dependencies.
  destruct (while_loop_total script_path timeout assume_yes python_executable
              w max_retries 0 [] ltac:(lia)) as [f W].
  exists f. split; [exact W|].
  destruct (loop_accounts _ _ _ _ W) as [new [Ei [_ [Nm [_ [_ D]]]]]].
  destruct (loop_counts script_path timeout assume_yes python_executable w
              _ _ _ _ W ltac:(unfold max_retries; lia)) as [[_ Hi] _].
  cbn [app] in Ei. rewrite Ei. split; [exact Nm|].
  unfold max_retries in *. lia.
Qed.

(** The trace holds one [Successfully installed] line per installed
    package, for the same names in the same order: the summary lists what
    pip installed and nothing else. *)
Theorem installed_lines_match_installed_packages :
  exists f,
    resolve = Some f
    /\ filter is_installed_line (trace f)
       = map installed_line (installed_packages f).
Proof.
  unfold resolve_dependencies.
  destruct (while_loop_total script_path timeout assume_yes python_executable
              w max_retries 0 [] ltac:(lia)) as [f W].
  exists f. split; [exact W|].
  destruct (loop_accounts _ _ _ _ W) as [new [Ei [Fl _]]].
  cbn [app] in Ei. now rewrite Ei.
Qed.

(** pip is spawned at most once per attempt and at least once per installed
    package. *)
Theorem pip_runs_are_bounded :
  exists f,
    resolve = Some f
    /\ List.length (installed_packages f) <= count is_pip_run (trace f)
    /\ count is_pip_run (trace f) <= count is_target_run (trace f)
    /\ count is_target_run (trace f) <= 20.
Proof.
  unfold resolve_dependencies.
  destruct (while_loop_total script_path timeout assume_yes python_executable
              w max_retries 0 [] ltac:(lia)) as [f W].
  exists f. split; [exact W|].
  destruct (loop_accounts _ _ _ _ W) as [new [Ei [_ [_ [Lp [Pr _]]]]]].
  destruct (loop_counts script_path timeout assume_yes python_executable w
              _ _ _ _ W ltac:(unfold max_retries; lia)) as [[_ Hi] [Ic _]].
  cbn [app] in Ei. rewrite Ei, Ic. unfold max_retries in *.
  repeat split; lia.
Qed.

(** Every process the loop spawns, the target and pip alike, is run under
    the interpreter it was given. *)
Theorem every_process_runs_under_the_interpreter :
  exists f,
    resolve = Some f
    /\ forallb (runs_under python_executable) (trace f) = true.
Proof.
  unfold resolve_dependencies.
  destruct (while_loop_total script_path timeout assume_yes python_executable
              w max_retries 0 [] ltac:(lia)) as [f W].
  exists f. split; [exact W|]. revert W.
  generalize max_retries at 1, 0, (@nil string). intros fuel n inst. revert f.
  revert fuel n inst.
  apply (while_loop_cases script_path timeout assume_yes python_executable w
    (fun n inst f => forallb (runs_under python_executable) (trace f) = true)).
  - intros n inst L. cbn [finish trace]. apply epilogue_forall; reflexivity.
  - intros n inst inst' evs L B. cbn [after finish trace].
    rewrite forallb_app, (pass_runs_under _ _ _ _ _ B).
    apply epilogue_forall; reflexivity.
  - intros n inst e evs L B. cbn [finish trace snd].
    exact (pass_runs_under _ _ _ _ _ B).
  - intros n inst inst' evs f L B IH. cbn [after trace].
    now rewrite forallb_app, (pass_runs_under _ _ _ _ _ B), IH.
Qed.

(** Under auto-confirm the operator is never asked anything. *)
Theorem auto_confirm_never_prompts :
  assume_yes = true ->
  exists f, resolve = Some f /\ existsb is_input (trace f) = false.
Proof.
  intros Y. unfold resolve_dependencies.
  destruct (while_loop_total script_path timeout assume_yes python_executable
              w max_retries 0 [] ltac:(lia)) as [f W].
  exists f. split; [exact W|]. revert W.
  generalize max_retries at 1, 0, (@nil string). intros fuel n inst. revert f.
  revert fuel n inst.
  apply (while_loop_cases script_path timeout assume_yes python_executable w
    (fun n inst f => existsb is_input (trace f) = false)).
  - intros n inst L. cbn [finish trace].
    apply forallb_negb_existsb, epilogue_forall; reflexivity.
  - intros n inst inst' evs L B. cbn [after finish trace].
    rewrite existsb_app, (pass_no_input _ _ _ _ _ Y B).
    apply forallb_negb_existsb, epilogue_forall; reflexivity.
  - intros n inst e evs L B. cbn [finish trace snd].
    exact (pass_no_input _ _ _ _ _ Y B).
  - intros n inst inst' evs f L B IH. cbn [after trace].
    now rewrite existsb_app, (pass_no_input _ _ _ _ _ Y B), IH.
Qed.

(** The function either returns or ends the process with exit status 1: no
    other exception leaves it. *)
Theorem loop_returns_or_exits_with_status_1 :
  exists f,
    resolve_dependencies script_path timeout assume_yes python_executable w
    = Some f
    /\ (outcome f = Ok tt \/ outcome f = Raise (SystemExit 1)).
Proof.
  unfold resolve_dependencies.
  destruct (while_loop_total script_path timeout assume_yes python_executable
              w max_retries 0 [] ltac:(lia)) as [f W].
  exists f. split; [exact W|].
  destruct (loop_outcome script_path timeout assume_yes python_executable w
              _ _ _ _ W) as [[O _] | [O _]]; auto.
Qed.


(** Idempotence: when the first run of the target exits 0, the function
    returns after that single run; nothing is installed, the installer is
    not called, and the summary says that no package was needed. *)
Theorem clean_first_run_installs_nothing (p : CompletedProcess) :
  target (w 1) = Within (Exited p) ->
  returncode p = 0%Z ->
  exists f,
    resolve = Some f
    /\ outcome f = Ok tt
    /\ retries f = 1
    /\ installed_packages f = []
    /\ trace f
       = (success_pass script_path python_executable 1 p ++ summary [])%list
    /\ In (Print "No new packages needed to be installed.") (trace f)
    /\ existsb installer_sign (trace f) = false.
Proof.
  intros T Z.
  pose proof (pass_loop_body script_path timeout assume_yes python_executable
                _ _ _ _ _
                (pass_success script_path timeout assume_yes python_executable
                   (w 1) 1 [] p T (or_introl Z))) as B.
  unfold resolve_dependencies.
  cbn [while_loop max_retries Nat.ltb Nat.leb Nat.add]. rewrite B.
  eexists. split; [reflexivity|].
  cbn [after finish outcome retries installed_packages trace].
  rewrite epilogue_eq. cbn [fst snd Nat.leb app].
  repeat split.
  - apply in_or_app. right. cbn. auto.
  - rewrite existsb_app. unfold success_pass.
    destruct (truthy (stderr p)); reflexivity.
Qed.

(** A pass that can only raise is the last one; the passes before it
    announce nothing, and each of them installed one package with one run
    of pip. *)
Lemma raising_pass_is_last (fuel n : nat) (inst : list string) (f : final)
    (k : nat) (e : exn) (E : list event) :
  loop fuel n inst = Some f ->
  n < k <= retries f ->
  (forall inst, pass (w k) k inst (Raise e) E) ->
  retries f = k /\ outcome f = Raise e
  /\ List.length (installed_packages f) + n + 1 = k + List.length inst
  /\ exists pre,
       (forall t, existsb (announces t) pre = false)
       /\ count is_pip_run pre + List.length inst
          = List.length (installed_packages f)
       /\ trace f = (pre ++ E)%list.
Proof.
  intros W. revert k e E. revert fuel n inst f W.
  apply (while_loop_cases script_path timeout assume_yes python_executable w
    (fun n inst f =>
       forall k e E,
         n < k <= retries f ->
         (forall inst, pass (w k) k inst (Raise e) E) ->
         retries f = k /\ outcome f = Raise e
         /\ List.length (installed_packages f) + n + 1
            = k + List.length inst
         /\ exists pre,
              (forall t, existsb (announces t) pre = false)
              /\ count is_pip_run pre + List.length inst
                 = List.length (installed_packages f)
              /\ trace f = (pre ++ E)%list)).
  - intros n inst L k e E Hk _. cbn [finish retries] in Hk. exfalso. lia.
  - intros n inst inst' evs L B k e E Hk Hr. cbn [after finish retries] in Hk.
    assert (k = n + 1) as -> by lia.
    destruct (pass_functional script_path timeout assume_yes
                python_executable _ _ _ _ _ _ _ B (Hr inst)) as [[=] _].
  - intros n inst e0 evs L B k e E Hk Hr.
    cbn [finish retries outcome trace installed_packages fst snd] in *.
    assert (k = n + 1) as -> by lia.
    destruct (pass_functional script_path timeout assume_yes
                python_executable _ _ _ _ _ _ _ B (Hr inst)) as [[= ->] ->].
    repeat split; [lia|]. exists []. repeat split.
  - intros n inst inst' evs f L B IH k e E Hk Hr.
    cbn [after retries outcome trace installed_packages] in *.
    destruct (Nat.eq_dec k (n + 1)) as [-> | Ne].
    + destruct (pass_functional script_path timeout assume_yes
                  python_executable _ _ _ _ _ _ _ B (Hr inst)) as [[=] _].
    + destruct (IH k e E ltac:(lia) Hr) as [R [O [Len [pre [Q [Cp T]]]]]].
      pose proof B as Ba.
      apply pass_accounts in Ba as [new [_ [[-> [-> P1]] _]]].
      rewrite length_app in Len, Cp. cbn [List.length] in Len, Cp.
      repeat split; auto; [lia|]. exists (evs ++ pre)%list. repeat split.
      * intros t. rewrite existsb_app, Q.
        apply pass_continue in B as [B _]. now rewrite B.
      * unfold count in *. rewrite filter_app, length_app, P1. lia.
      * now rewrite T, app_assoc.
Qed.

(** A missing script or interpreter is fatal at once: the attempt in which
    the target cannot be found ends the process with status 1 after one
    critical line that names both paths; the installer is not called, no
    summary is printed, and none of the six terminal reasons is
    announced. *)
Theorem missing_target_is_fatal (f : final) (k : nat) :
  resolve = Some f ->
  1 <= k <= retries f ->
  target (w k) = Within NoSuchFile ->
  retries f = k
  /\ outcome f = Raise (SystemExit 1)
  /\ (exists pre,
         trace f
         = (pre ++ opening script_path python_executable k
            ++ [Log CRITICAL ("Error: The script '" ++ script_path
                              ++ "' or interpreter '" ++ python_executable
                              ++ "' was not found.")])%list)
  /\ (forall t, reached t (trace f) = false).
Proof.
  intros W Hk T.
  destruct (raising_pass_is_last max_retries 0 [] f k _ _ W ltac:(lia)
              (fun inst => pass_not_found script_path timeout assume_yes
                             python_executable (w k) k inst T))
    as [R [O [_ [pre [Q [_ Tr]]]]]].
  repeat split; eauto.
  intros t. unfold reached. rewrite Tr, existsb_app, Q.
  destruct t; reflexivity.
Qed.

(** An interrupt at the prompt inside the loop ends the process with status
    1 in that attempt: the cancellation line is the last thing logged, pip
    is not spawned for the detected module, and the exit is announced
    neither as a declined nor as a failed installation. *)
Theorem interrupt_at_prompt_ends_the_loop (f : final) (k : nat)
    (name : string) :
  resolve = Some f ->
  1 <= k <= retries f ->
  misses (w k) name ->
  assume_yes = false ->
  operator (w k) = CtrlC ->
  retries f = k
  /\ outcome f = Raise (SystemExit 1)
  /\ (exists pre,
         trace f
         = (pre ++ opening script_path python_executable k
            ++ [detected name;
                Input ("Missing package '" ++ name
                       ++ "'. Install with pip? [Y/n] ");
                Log INFO (NL ++ "Installation cancelled by user.")])%list)
  /\ (forall t, reached t (trace f) = false).
Proof.
  intros W Hk Mi Y Op.
  assert (N : name <> EmptyString) by (now destruct Mi as [p [_ [_ [_ N]]]]).
  assert (I : install_package (w k) name python_executable assume_yes
              = (Raise (SystemExit 1),
                 [Input ("Missing package '" ++ name
                         ++ "'. Install with pip? [Y/n] ");
                  Log INFO (NL ++ "Installation cancelled by user.")])).
  { rewrite Y. unfold install_package, confirm.
    destruct name as [|c pkg]; [now contradiction N|].
    cbn [truthy negb]. run_m. rewrite Op. run_m. reflexivity. }
  destruct (raising_pass_is_last max_retries 0 [] f k _ _ W ltac:(lia)
              (fun inst => pass_install_cancelled script_path timeout
                             assume_yes python_executable (w k) k inst
                             name _ Mi I))
    as [R [O [_ [pre [Q [_ Tr]]]]]].
  repeat split; eauto.
  intros t. unfold reached. rewrite Tr, existsb_app, Q.
  destruct t; reflexivity.
Qed.

(** When the operator answers the prompt with anything but the accepted
    answers, the process ends with status 1 in that attempt, announced as a
    declined installation (not as a failed one); pip is not spawned for the
    detected module, which is not added to the list. *)
Theorem declined_installation_ends_the_loop (f : final) (k : nat)
    (name line : string) :
  resolve = Some f ->
  1 <= k <= retries f ->
  misses (w k) name ->
  assume_yes = false ->
  operator (w k) = Typed line ->
  consents line = false ->
  retries f = k
  /\ outcome f = Raise (SystemExit 1)
  /\ reached InstallDeclined (trace f) = true
  /\ reached InstallFailed (trace f) = false
  /\ List.length (installed_packages f) + 1 = k
  /\ count is_pip_run (trace f) = List.length (installed_packages f).
Proof.
  intros W Hk Mi Y Op C.
  assert (N : name <> EmptyString) by (now destruct Mi as [p [_ [_ [_ N]]]]).
  assert (I : install_package (w k) name python_executable assume_yes
              = (Ok (false, "User declined to install " ++ name ++ "."),
                 [Input ("Missing package '" ++ name
                         ++ "'. Install with pip? [Y/n] ");
                  Log WARNING ("Skipping installation of '" ++ name ++ "'.")])).
  { rewrite Y. unfold install_package, confirm.
    destruct name as [|c pkg]; [now contradiction N|].
    cbn [truthy negb]. run_m. rewrite Op. run_m.
    unfold consents in C. rewrite C. run_m. reflexivity. }
  pose proof (fun inst => pass_install_failed script_path timeout assume_yes
                python_executable (w k) k inst name _ _ Mi I) as Hr.
  destruct (raising_pass_is_last max_retries 0 [] f k _ _ W ltac:(lia) Hr)
    as [R [O [Len [pre [Q [Cp Tr]]]]]].
  cbn [List.length] in Len, Cp.
  assert (D : existsb is_decline_warning (trace f) = true).
  { rewrite Tr, !existsb_app. cbn. apply orb_true_r. }
  assert (A : existsb (announces InstallFailed) (trace f) = true).
  { rewrite Tr, !existsb_app. cbn. apply orb_true_r. }
  unfold reached.
  change (announces InstallDeclined) with (announces InstallFailed).
  rewrite A, D. repeat split; auto; [lia|].
  rewrite Tr. unfold count in *. rewrite !filter_app, !length_app.
  cbn. lia.
Qed.

End MoreLoopProofs.

(** ** Properties of every event of the loop *)

Section EveryEvent.

Variable Q : event -> bool.
Variable script_path : string.
Variable timeout : Z.
Variable assume_yes : bool.
Variable python_executable : string.

Hypothesis Q_log : forall l m, Q (Log l m) = true.
Hypothesis Q_print : forall m, Q (Print m) = true.
Hypothesis Q_input : forall m, Q (Input m) = true.
Hypothesis Q_target : Q (Run [python_executable; script_path]) = true.
Hypothesis Q_pip :
  forall pkg, Q (Run [python_executable; "-m"; "pip"; "install"; pkg]) = true.

Lemma installer_every_event (a : attempt_world) (pkg : string) :
  forallb Q (snd (install_package a pkg python_executable assume_yes)) = true.
Proof.
  installer_cases a pkg assume_yes; cbn [snd forallb];
    rewrite ?Q_log, ?Q_print, ?Q_input, ?Q_pip; reflexivity.
Qed.

Lemma pass_every_event (a : attempt_world) (k : nat) (inst : list string)
    (r : result (control * list string)) (evs : list event) :
  pass script_path timeout assume_yes python_executable a k inst r evs ->
  forallb Q evs = true.
Proof.
  intros [T | p T S | p T Z E P | name message ievs Mi I
          | name message ievs Mi I | name ievs Mi I | name msg ievs Mi I
          | T | msg T];
    try (pose proof (installer_every_event a name) as R;
         rewrite I in R; cbn [snd] in R);
    unfold timeout_pass, success_pass, unrecognized_pass, opening, banner,
      detected, abort_lines, unexpected;
    cbn [app forallb];
    rewrite ?forallb_app, ?R; try destruct (truthy (stderr p));
    cbn [forallb app];
    rewrite ?Q_log, ?Q_print, ?Q_target; reflexivity.
Qed.

Lemma loop_every_event (w : world) (fuel n : nat) (inst : list string)
    (f : final) :
  while_loop script_path timeout assume_yes python_executable w fuel n inst
  = Some f ->
  forallb Q (trace f) = true.
Proof.
  revert fuel n inst f.
  apply (while_loop_cases script_path timeout assume_yes python_executable w
           (fun n inst f => forallb Q (trace f) = true)).
  - intros n inst L. cbn [finish trace]. now apply epilogue_forall.
  - intros n inst inst' evs L B. cbn [after finish trace].
    rewrite forallb_app, (pass_every_event _ _ _ _ _ B).
    now apply epilogue_forall.
  - intros n inst e evs L B. cbn [finish trace snd].
    exact (pass_every_event _ _ _ _ _ B).
  - intros n inst inst' evs f L B IH. cbn [after trace].
    now rewrite forallb_app, (pass_every_event _ _ _ _ _ B), IH.
Qed.

End EveryEvent.

(** ** The entry point *)

Lemma count_zero_existsb {A} (f : A -> bool) (l : list A) :
  count f l = 0 -> existsb f l = false.
Proof.
  unfold count. induction l as [|x l IH]; cbn; [reflexivity|].
  destruct (f x); cbn; [discriminate | exact IH].
Qed.

(** With [--create-env], the ways the choice of the interpreter can go. *)
Lemma choose_interpreter_cases (h : Main.host) (args : Main.Args) :
  Main.create_env args = true ->
  let py := Main.venv_python (Main.platform h) in
  match Main.choose_interpreter h args with
  | (Ok x, evs) =>
      x = py
      /\ ((Main.files h Main.VENV_NAME = true /\ Main.files h py = true
           /\ evs = [exists_line; using_line h])
          \/ (Main.files h Main.VENV_NAME = false
              /\ (exists p, Main.venv_run h = Exited p /\ returncode p = 0%Z)
              /\ Main.files_after_venv h py = true
              /\ evs = [Log INFO ("Creating virtual environment '"
                                  ++ Main.VENV_NAME ++ "'...");
                        Run (venv_argv h);
                        Log INFO "Successfully created virtual environment.";
                        using_line h]))
  | (Raise e, evs) =>
      (forall argv, In (Run argv) evs -> argv = venv_argv h)
      /\ count is_target_run evs = 0
      /\ count is_pip_run evs = 0
  end.
Proof.
  intros C. cbv zeta. unfold Main.choose_interpreter. rewrite C.
  destruct (Main.files h Main.VENV_NAME) eqn:D; run_m.
  - destruct (Main.files h (Main.venv_python (Main.platform h))) eqn:F; run_m.
    + split; [reflexivity|]. left. auto.
    + repeat split. intros argv [I | [I | []]]; discriminate.
  - destruct (Main.venv_run h) as [p | | msg] eqn:V; run_m.
    + destruct (returncode p =? 0)%Z eqn:Z; run_m.
      * destruct (Main.files_after_venv h (Main.venv_python (Main.platform h)))
          eqn:F; run_m.
        -- split; [reflexivity|]. right. apply Z.eqb_eq in Z. eauto 10.
        -- repeat split.
           intros argv [I | [I | [I | [I | []]]]]; try discriminate.
           now injection I as <-.
      * repeat split.
        intros argv [I | [I | [I | []]]]; try discriminate.
        now injection I as <-.
    + repeat split.
      intros argv [I | [I | []]]; try discriminate. now injection I as <-.
    + repeat split.
      intros argv [I | [I | []]]; try discriminate. now injection I as <-.
Qed.

(** With [--create-env], the system interpreter is used for one thing only,
    creating the environment: every other process, the target and every
    pip, is run under the interpreter of the environment. *)
Theorem venv_interpreter_runs_target_and_pip (h : Main.host)
    (args : Main.Args) (r : result unit) (evs : list event) :
  Main.create_env args = true ->
  Main.main h args = Some (r, evs) ->
  forall argv,
    In (Run argv) evs ->
    argv = venv_argv h
    \/ exists rest, argv = Main.venv_python (Main.platform h) :: rest.
Proof.
  intros C M argv I. unfold Main.main in M.
  pose proof (choose_interpreter_cases h args C) as Ch. cbv zeta in Ch.
  destruct (Main.choose_interpreter h args) as [[x | e] sevs].
  - destruct Ch as [-> Ch].
    destruct (resolve_dependencies _ _ _ _ _) as [f|] eqn:W; [|discriminate].
    cbn [option_map] in M. injection M as <- <-.
    apply in_app_or in I as [I | I].
    + left. destruct Ch as [[_ [_ ->]] | [_ [_ [_ ->]]]]; cbn [In] in I.
      * destruct I as [I | [I | []]]; discriminate.
      * destruct I as [I | [I | [I | [I | []]]]]; try discriminate.
        now injection I as <-.
    + right.
      assert (R : forallb (runs_under (Main.venv_python (Main.platform h)))
                    (trace f) = true).
      { apply (loop_every_event
                 (runs_under (Main.venv_python (Main.platform h)))
                 _ _ _ _
                 ltac:(reflexivity) ltac:(reflexivity) ltac:(reflexivity)
                 ltac:(cbn; apply String.eqb_refl)
                 ltac:(intros; cbn; apply String.eqb_refl) _ _ _ _ _ W). }
      rewrite forallb_forall in R. specialize (R _ I).
      destruct argv as [|exe rest]; [discriminate|].
      cbn in R. apply String.eqb_eq in R. subst. eauto.
  - injection M as <- <-. left. now apply Ch.
Qed.

(** With [--create-env], the target is never run unless the interpreter of
    the environment was found to exist, in an environment that was there
    already or that was created with exit status 0. *)
Theorem target_runs_only_with_checked_interpreter (h : Main.host)
    (args : Main.Args) (r : result unit) (evs : list event) :
  Main.create_env args = true ->
  Main.main h args = Some (r, evs) ->
  existsb is_target_run evs = true ->
  let py := Main.venv_python (Main.platform h) in
  (Main.files h Main.VENV_NAME = true /\ Main.files h py = true)
  \/ (Main.files h Main.VENV_NAME = false
      /\ (exists p, Main.venv_run h = Exited p /\ returncode p = 0%Z)
      /\ Main.files_after_venv h py = true).
Proof.
  intros C M E. cbv zeta. unfold Main.main in M.
  pose proof (choose_interpreter_cases h args C) as Ch. cbv zeta in Ch.
  destruct (Main.choose_interpreter h args) as [[x | e] sevs].
  - destruct Ch as [_ [[D [F _]] | [D [V [F _]]]]]; auto.
  - injection M as <- <-. destruct Ch as [_ [T _]].
    apply count_zero_existsb in T. congruence.
Qed.

(** When [python -m venv] exits with a nonzero status the process ends with
    status 1 after logging its captured stderr; the target is not run. *)
Theorem failed_venv_creation_is_fatal (h : Main.host) (args : Main.Args)
    (p : CompletedProcess) :
  Main.create_env args = true ->
  Main.files h Main.VENV_NAME = false ->
  Main.venv_run h = Exited p ->
  returncode p <> 0%Z ->
  Main.main h args
  = Some (Raise (SystemExit 1),
          [Log INFO ("Creating virtual environment '"
                     ++ Main.VENV_NAME ++ "'...");
           Run (venv_argv h);
           Log CRITICAL ("Failed to create virtual environment."
                         ++ NL ++ stderr p)]).
Proof.
  intros C D V Z. apply Z.eqb_neq in Z.
  unfold Main.main, Main.choose_interpreter. rewrite C, D. run_m.
  rewrite V. run_m. rewrite Z. run_m. reflexivity.
Qed.

(** An [env] directory that is already there is reused: no environment is
    created (no process but the target and pip is spawned), and the loop
    runs under its interpreter if that exists; if it does not, the process
    ends with status 1 before anything is run. *)
Theorem existing_environment_is_reused (h : Main.host) (args : Main.Args) :
  Main.create_env args = true ->
  Main.files h Main.VENV_NAME = true ->
  let py := Main.venv_python (Main.platform h) in
  (Main.files h py = true ->
   exists f,
     resolve_dependencies (Main.script_path args) (Main.fork_timeout args)
       (Main.yes args) py (Main.attempts h) = Some f
     /\ Main.main h args
        = Some (outcome f, ([exists_line; using_line h] ++ trace f)%list)
     /\ existsb Main.is_venv_run ([exists_line; using_line h] ++ trace f)
        = false)
  /\ (Main.files h py = false ->
      Main.main h args
      = Some (Raise (SystemExit 1),
              [exists_line;
               Log CRITICAL ("Could not find Python executable in venv at '"
                             ++ py ++ "'.")])).
Proof.
  intros C D. cbv zeta. split; intros F;
    unfold Main.main, Main.choose_interpreter; rewrite C, D; run_m;
    rewrite F; run_m; [|reflexivity].
  fold (using_line h).
  destruct (while_loop_total (Main.script_path args) (Main.fork_timeout args)
              (Main.yes args) (Main.venv_python (Main.platform h))
              (Main.attempts h) max_retries 0 [] ltac:(lia)) as [f W].
  exists f. unfold resolve_dependencies. rewrite W. cbn [option_map].
  split; [reflexivity|]. split; [reflexivity|].
  cbn [app existsb Main.is_venv_run exists_line using_line orb].
  apply forallb_negb_existsb.
  apply (loop_every_event (fun e => negb (Main.is_venv_run e)) _ _ _ _
           ltac:(reflexivity) ltac:(reflexivity) ltac:(reflexivity)
           ltac:(reflexivity) ltac:(reflexivity) _ _ _ _ _ W).
Qed.

(** ** The further properties at the sample worlds *)

Lemma clean_first_run_installs_nothing_witness :
  exists f,
    resolve_dependencies "target.py" 15 false "python" Scenario.clean = Some f
    /\ outcome f = Ok tt
    /\ retries f = 1
    /\ installed_packages f = []
    /\ trace f
       = (success_pass "target.py" "python" 1 Scenario.clean_run
          ++ summary [])%list
    /\ In (Print "No new packages needed to be installed.") (trace f)
    /\ existsb installer_sign (trace f) = false.
Proof.
  apply (clean_first_run_installs_nothing "target.py" 15 false "python"
           Scenario.clean Scenario.clean_run); reflexivity.
Defined.

Lemma auto_confirm_never_prompts_witness :
  exists f,
    resolve_dependencies "target.py" 15 true "python" Sample.always_one_more
    = Some f
    /\ existsb is_input (trace f) = false.
Proof.
  apply (auto_confirm_never_prompts "target.py" 15 true "python"
           Sample.always_one_more).
  reflexivity.
Defined.

Lemma missing_target_is_fatal_witness :
  exists f,
    resolve_dependencies "target.py" 15 false "python" Scenario.no_script
    = Some f
    /\ retries f = 1
    /\ outcome f = Raise (SystemExit 1)
    /\ forall t, reached t (trace f) = false.
Proof.
  eexists. split; [vm_compute; reflexivity|].
  lazymatch goal with
  | |- retries ?f = _ /\ _ =>
      destruct (missing_target_is_fatal "target.py" 15 false "python"
                  Scenario.no_script f 1) as [R [O [_ A]]]
  end;
    [vm_compute; reflexivity | cbn [retries]; lia | reflexivity |].
  split; [reflexivity|]. split; [exact O | exact A].
Defined.

Lemma interrupt_at_prompt_ends_the_loop_witness :
  exists f,
    resolve_dependencies "target.py" 15 false "python" Scenario.interrupted
    = Some f
    /\ misses (Scenario.interrupted 1) "requests"
    /\ retries f = 1
    /\ outcome f = Raise (SystemExit 1)
    /\ forall t, reached t (trace f) = false.
Proof.
  assert (Mi : misses (Scenario.interrupted 1) "requests").
  { eexists. split; [reflexivity|]. repeat split; discriminate. }
  eexists. split; [vm_compute; reflexivity|]. split; [exact Mi|].
  lazymatch goal with
  | |- retries ?f = _ /\ _ =>
      destruct (interrupt_at_prompt_ends_the_loop "target.py" 15 false
                  "python" Scenario.interrupted f 1 "requests")
        as [R [O [_ A]]]
  end;
    [vm_compute; reflexivity | cbn [retries]; lia | exact Mi | reflexivity
    | reflexivity |].
  split; [reflexivity|]. split; [exact O | exact A].
Defined.

Lemma declined_installation_ends_the_loop_witness :
  exists f,
    resolve_dependencies "target.py" 15 false "python" Sample.operator_says_no
    = Some f
    /\ consents "n" = false
    /\ retries f = 1
    /\ outcome f = Raise (SystemExit 1)
    /\ reached InstallDeclined (trace f) = true
    /\ reached InstallFailed (trace f) = false
    /\ count is_pip_run (trace f) = List.length (installed_packages f).
Proof.
  assert (Mi : misses (Sample.operator_says_no 1) "requests").
  { eexists. split; [reflexivity|]. repeat split; discriminate. }
  eexists. split; [vm_compute; reflexivity|]. split; [reflexivity|].
  lazymatch goal with
  | |- retries ?f = _ /\ _ =>
      destruct (declined_installation_ends_the_loop "target.py" 15 false
                  "python" Sample.operator_says_no f 1 "requests" "n")
        as [R [O [D [F [_ P]]]]]
  end;
    [vm_compute; reflexivity | cbn [retries]; lia | exact Mi | reflexivity
    | reflexivity | reflexivity |].
  split; [reflexivity|]. repeat split; assumption.
Defined.

Lemma venv_interpreter_runs_target_and_pip_witness :
  exists r evs,
    Main.main Scenario.windows_with_env (Scenario.arguments true)
    = Some (r, evs)
    /\ forall argv,
         In (Run argv) evs ->
         argv = venv_argv Scenario.windows_with_env
         \/ exists rest,
              argv = Main.venv_python "win32" :: rest.
Proof.
  eexists. eexists. split; [vm_compute; reflexivity|].
  eapply (venv_interpreter_runs_target_and_pip Scenario.windows_with_env
            (Scenario.arguments true));
    [reflexivity | vm_compute; reflexivity].
Defined.

Lemma target_runs_only_with_checked_interpreter_witness :
  Main.files Scenario.windows_with_env Main.VENV_NAME = true
  /\ Main.files Scenario.windows_with_env (Main.venv_python "win32") = true
  \/ Main.files Scenario.windows_with_env Main.VENV_NAME = false
     /\ (exists p,
            Main.venv_run Scenario.windows_with_env = Exited p
            /\ returncode p = 0%Z)
     /\ Main.files_after_venv Scenario.windows_with_env
          (Main.venv_python "win32") = true.
Proof.
  destruct (Main.main Scenario.windows_with_env (Scenario.arguments true))
    as [[r evs]|] eqn:M; [|vm_compute in M; discriminate M].
  apply (target_runs_only_with_checked_interpreter Scenario.windows_with_env
           (Scenario.arguments true) r evs eq_refl M).
  vm_compute in M. injection M as <- <-. reflexivity.
Defined.

Lemma failed_venv_creation_is_fatal_witness :
  Main.main Scenario.broken_venv (Scenario.arguments true)
  = Some (Raise (SystemExit 1),
          [Log INFO "Creating virtual environment 'env'...";
           Run ["/usr/bin/python3"; "-m"; "venv"; "env"];
           Log CRITICAL ("Failed to create virtual environment." ++ NL
                         ++ "Error: ensurepip is not available")]).
Proof.
  apply (failed_venv_creation_is_fatal Scenario.broken_venv
           (Scenario.arguments true) Scenario.venv_failure);
    [reflexivity | reflexivity | reflexivity | discriminate].
Defined.

Lemma existing_environment_is_reused_witness :
  exists f,
    resolve_dependencies "target.py" 15 true (Main.venv_python "win32")
      Sample.always_one_more = Some f
    /\ Main.main Scenario.windows_with_env (Scenario.arguments true)
       = Some (outcome f,
               ([exists_line; using_line Scenario.windows_with_env]
                ++ trace f)%list)
    /\ existsb Main.is_venv_run
         ([exists_line; using_line Scenario.windows_with_env] ++ trace f)
       = false.
Proof.
  apply (proj1 (existing_environment_is_reused Scenario.windows_with_env
                  (Scenario.arguments true) eq_refl eq_refl)).
  reflexivity.
Defined.
